(** * go-handbook, gcp/examples: the BigQuery and Bigtable example programs

    A shallow embedding of the two example programs of [gcp/examples]:
    the warehouse (BigQuery) example and the wide-column (Bigtable)
    example of [big_table.go], followed by the properties of the row-key
    scheme and of the two top-level flows.

    Layout: the pieces of the Go runtime and standard library the programs
    rely on ([int64]/[uint64] arithmetic, [fmt.Sprintf], [time.Time]), the
    effect model (external calls recorded in a trace, [log.Fatal] as an
    early exit), the two programs, the notions the statements use, and then
    the lemmas and theorems.  Standard output is recorded line by line in
    structured form, not as formatted text. *)

From Stdlib Require Import ZArith Lia List Bool.
From Stdlib Require Import Ascii String.
Import ListNotations.
Local Open Scope string_scope.
Local Open Scope Z_scope.

(** ** Go integers *)

(** Conversion to [uint64]: the value modulo 2^64. *)
Definition uint64 (z : Z) : Z := z mod 2 ^ 64.

(** Conversion to [int64]: two's complement wrap-around. *)
Definition int64 (z : Z) : Z := (z + 2 ^ 63) mod 2 ^ 64 - 2 ^ 63.

(** The unary operator [^x] at type [uint64]: [x] xor-ed with the word
    whose 64 bits are all set (Go specification, arithmetic operators). *)
Definition compl64 (x : Z) : Z := Z.lxor x (2 ^ 64 - 1).

(** ** fmt: decimal formatting and Sprintf *)

(** [byte('0' + d)] *)
Definition digit (d : Z) : ascii := ascii_of_N (Z.to_N (48 + d)).

(** The digit loop of [fmt]'s integer formatter in base 10:
    [for u >= 10 { next := u / 10; buf[i] = byte('0' + u - next*10); u = next }]
    followed by the store of the last digit.  The buffer is filled from its
    end, so each digit is put in front of the ones already written.  [fuel]
    bounds the number of iterations of the loop. *)
Fixpoint fmtInteger (fuel : nat) (u : Z) (buf : string) : string :=
  match fuel with
  | O => String (digit u) buf
  | S fuel' =>
      if 10 <=? u then
        let next := u / 10 in
        fmtInteger fuel' next (String (digit (u - next * 10)) buf)
      else String (digit u) buf
  end.

(** [%d] of an unsigned 64-bit operand: at most 20 digits, hence at most 19
    iterations of the loop. *)
Definition FormatUint (u : Z) : string := fmtInteger 19 u "".

(** [%d] of a signed 64-bit operand. *)
Definition FormatInt (i : Z) : string :=
  if i <? 0 then String "-" (FormatUint (- i)) else FormatUint i.

(** Operands of a formatting call, for the operand types the programs use. *)
Inductive Arg : Type :=
| ArgString (s : string)
| ArgUint64 (u : Z)
| ArgInt64 (i : Z)
| ArgError (msg : string).

(** Default format of an operand.  The programs only pair [%s] with
    strings, [%d] with integers and [%v]/[%w] with errors; for these pairs
    the verb prints the operand's default format. *)
Definition formatArg (a : Arg) : string :=
  match a with
  | ArgString s => s
  | ArgUint64 u => FormatUint u
  | ArgInt64 i => FormatInt i
  | ArgError msg => msg
  end.

Definition is_verb (c : ascii) : bool :=
  ((c =? "s") || (c =? "d") || (c =? "v") || (c =? "w"))%char.

(** [fmt.Sprintf] over the verbs [%s], [%d], [%v], [%w]: literal bytes are
    copied, each verb consumes the next operand.  A verb without an operand
    prints Go's [%!verb(MISSING)], a lone [%] at the end [%!(NOVERB)].  The
    programs use no other verb; one is rendered as a marker that names
    it. *)
Fixpoint Sprintf (format : string) (args : list Arg) : string :=
  match format with
  | EmptyString => EmptyString
  | String c rest =>
      if (c =? "%")%char then
        match rest with
        | EmptyString => "%!(NOVERB)"
        | String verb rest' =>
            if is_verb verb then
              match args with
              | a :: args' => formatArg a ++ Sprintf rest' args'
              | [] => "%!" ++ String verb "(MISSING)" ++ Sprintf rest' []
              end
            else "%!" ++ String verb "(BADVERB)" ++ Sprintf rest' args
        end
      else String c (Sprintf rest args)
  end.

(** ** time.Time *)

(** The instant a [time.Time] denotes, as the pair its accessors
    [unixSec()] (seconds since the Unix epoch) and [nsec()] (nanoseconds
    within the second) return. *)
Record Time : Type := mkTime { unixSec : Z; nsec : Z }.

Definition valid_time (t : Time) : Prop :=
  - 2 ^ 63 <= unixSec t < 2 ^ 63 /\ 0 <= nsec t < 1000000000.

(** [t.UnixMilli()]: [t.unixSec()*1e3 + int64(t.nsec())/1e6] in [int64]. *)
Definition UnixMilli (t : Time) : Z :=
  int64 (unixSec t * 1000 + nsec t / 1000000).

(** [t.UnixNano()]: [t.unixSec()*1e9 + int64(t.nsec())] in [int64]. *)
Definition UnixNano (t : Time) : Z :=
  int64 (unixSec t * 1000000000 + nsec t).

(** [t1.Before(t2)] *)
Definition Before (t1 t2 : Time) : Prop :=
  unixSec t1 < unixSec t2 \/ (unixSec t1 = unixSec t2 /\ nsec t1 < nsec t2).

(** Nanoseconds between the epoch and [t], unbounded; [since_epoch t2 -
    since_epoch t1] is the duration from [t1] to [t2]. *)
Definition since_epoch (t : Time) : Z := unixSec t * 1000000000 + nsec t.

(** ** Reading decimal numerals back *)

Definition is_digit (c : ascii) : bool :=
  ((48 <=? N_of_ascii c) && (N_of_ascii c <=? 57))%N.

Definition digit_val (c : ascii) : Z := Z.of_N (N_of_ascii c) - 48.

Fixpoint all_digits (s : string) : bool :=
  match s with
  | EmptyString => true
  | String c s' => is_digit c && all_digits s'
  end.

(** Value of a string of decimal digits, most significant digit first. *)
Fixpoint numeral_value (s : string) : Z :=
  match s with
  | EmptyString => 0
  | String c s' => digit_val c * 10 ^ Z.of_nat (String.length s') + numeral_value s'
  end.

(** A decimal numeral as [%d] prints it: digits only, not empty, and no
    leading zero except for the numeral ["0"] itself. *)
Definition canonical_numeral (s : string) : Prop :=
  all_digits s = true /\ s <> "" /\
  (s = "0" \/ exists c s', s = String c s' /\ c <> "0"%char).

(** What [%d] prints for [u]: the digits of [u], most significant first,
    without a leading zero unless [u] is zero. *)
Definition prints_as (u : Z) (ds : string) : Prop :=
  all_digits ds = true /\ numeral_value ds = u /\
  exists c s', ds = String c s' /\ (0 < u -> c <> "0"%char) /\ (u = 0 -> ds = "0").

(** ** Order of row keys *)

(** Bigtable keeps the rows of a table ordered by key, comparing keys
    byte by byte: [a] sorts before [b]. *)
Definition sorts_before (a b : string) : Prop := String.compare a b = Lt.

(** Both timestamps before the Unix epoch, or none of them. *)
Definition same_side_of_epoch (t1 t2 : Time) : Prop :=
  UnixMilli t1 < 0 <-> UnixMilli t2 < 0.

(** Sample timestamps: the epoch, half a millisecond after it, the last
    millisecond before it, and the two instants whose millisecond values
    are -(10^18 + 1) and 2^63 - 1. *)
Definition epoch : Time := mkTime 0 0.
Definition epoch_half_milli : Time := mkTime 0 500000.
Definition last_milli_before_epoch : Time := mkTime (-1) 999000000.
Definition far_past : Time := mkTime (-1000000000000001) 999000000.
Definition far_future : Time := mkTime 9223372036854775 807000000.

(** ** Effects of a run

    A run of a program is recorded as the list of its observable events, in
    the order they happen, together with how it ends.  What the outside
    world answers (environment variables, the clock, the outcome of each
    call to a service) is given by a record, one field per call site. *)

(** An error value, identified with the message [err.Error()] returns. *)
Definition error : Type := string.

(** Events, over the external calls [C] and the output lines [O] of a
    program.  [Called c err] is an attempted call to the service, with the
    error it returned, if any. *)
Inductive Event (C O : Type) : Type :=
| Called (c : C) (err : option error)
| Closed
| Logged (msg : string)
| Printed (o : O).

Arguments Called {C O} c err.
Arguments Closed {C O}.
Arguments Logged {C O} msg.
Arguments Printed {C O} o.

(** A computation either returns to its caller or ends the process
    ([os.Exit], which [log.Fatal] calls; deferred calls do not run then). *)
Inductive Outcome (A : Type) : Type :=
| Returns (a : A)
| Exits (code : Z).

Arguments Returns {A} a.
Arguments Exits {A} code.

Definition Prog (Ev A : Type) : Type := (list Ev * Outcome A)%type.

Definition ret {Ev A : Type} (a : A) : Prog Ev A := ([], Returns a).

Definition bind {Ev A B : Type} (m : Prog Ev A) (k : A -> Prog Ev B) : Prog Ev B :=
  match m with
  | (tr, Exits code) => (tr, Exits code)
  | (tr, Returns a) => let (tr', o) := k a in ((tr ++ tr')%list, o)
  end.

Notation "x <- m ;; k" := (bind m (fun x => k))
  (at level 61, m at next level, right associativity).
Notation "m ;; k" := (bind m (fun _ => k))
  (at level 61, right associativity).

Definition emit {Ev : Type} (e : Ev) : Prog Ev unit := ([e], Returns tt).

(** An external call: recorded, and its error handed to the caller. *)
Definition call {C O : Type} (c : C) (err : option error) : Prog (Event C O) (option error) :=
  ([Called c err], Returns err).

(** [log.Fatal] / [log.Fatalf]: the message, then [os.Exit(1)]. *)
Definition Fatal {C O A : Type} (msg : string) : Prog (Event C O) A :=
  ([Logged msg], Exits 1).

Definition Fatalf {C O A : Type} (format : string) (args : list Arg) : Prog (Event C O) A :=
  Fatal (Sprintf format args).

(** The trace and the exit status of a run of [main]. *)
Definition trace {Ev A : Type} (p : Prog Ev A) : list Ev := fst p.

Definition exit_status {Ev A : Type} (p : Prog Ev A) : Z :=
  match snd p with
  | Returns _ => 0
  | Exits code => code
  end.

(** Classification of events. *)
Definition is_call {C O : Type} (e : Event C O) : bool :=
  match e with
  | Called _ _ => true
  | _ => false
  end.

Definition is_failed_call {C O : Type} (e : Event C O) : bool :=
  match e with
  | Called _ (Some _) => true
  | _ => false
  end.

(** A [for ... range] loop over a list whose body neither breaks nor
    returns. *)
Fixpoint for_each {Ev A : Type} (l : list A) (body : A -> Prog Ev unit) : Prog Ev unit :=
  match l with
  | [] => ret tt
  | x :: l' => body x ;; for_each l' body
  end.

(** * The wide-column example, [gcp/examples/big_table.go] *)

Module BigTable.

Record Config : Type := mkConfig {
  ProjectID : string;
  InstanceID : string;
  TableID : string;
  ColumnFamily : string
}.

(** One [mut.Set(family, column, ts, value)] of a [bigtable.Mutation]. *)
Record SetCell : Type := mkSetCell {
  set_family : string;
  set_column : string;
  set_ts : Z;
  set_value : string
}.

Definition Mutation : Type := list SetCell.

(** [bigtable.ReadItem] *)
Record ReadItem : Type := mkReadItem {
  Column : string;
  Timestamp : Z;
  Value : string
}.

(** [bigtable.Row], a [map[string][]ReadItem]: its families with their
    items, in the order the [range] loop visits them. *)
Definition Row : Type := list (string * list ReadItem).

(** Calls to the Bigtable service. *)
Inductive Call : Type :=
| NewClient (projectID instanceID : string)
| Apply (tableID key : string) (mut : Mutation)
| ReadRow (tableID key : string)
| ReadRows (tableID prefix : string) (latestN : Z).

(** Lines written to standard output. *)
Inductive Output : Type :=
| OutWrote (key : string)
| OutReading (key : string)
| OutFamily (fam : string)
| OutItem (it : ReadItem)
| OutScanning (prefix : string)
| OutRow (key : string).

Abbreviation Ev := (Event Call Output).

(** What the outside world answers during one run. *)
Record World : Type := mkWorld {
  dotenv_load : option error;        (* godotenv.Load() *)
  getenv : string -> string;         (* os.Getenv *)
  time_now : Time;                   (* time.Now() in writeRow *)
  bigtable_now_temp : Z;             (* bigtable.Now(), first Set *)
  bigtable_now_hum : Z;              (* bigtable.Now(), second Set *)
  new_client : option error;         (* bigtable.NewClient *)
  apply : option error;              (* tbl.Apply *)
  read_row_err : option error;       (* tbl.ReadRow, the error *)
  read_row : Row;                    (* tbl.ReadRow, the row *)
  scan_rows : list string;           (* tbl.ReadRows, keys of the rows delivered *)
  scan_err : option error            (* tbl.ReadRows, the error *)
}.

(** Load environment variables from .env *)
Definition loadConfig (w : World) : Prog Ev Config :=
  match dotenv_load w with
  | Some err => Fatalf "Error loading .env file: %v" [ArgError err]
  | None =>
      ret {| ProjectID := getenv w "PROJECT_ID";
             InstanceID := getenv w "INSTANCE_ID";
             TableID := getenv w "TABLE_ID";
             ColumnFamily := getenv w "COLUMN_FAMILY" |}
  end.

(** Generate a row key using reversed timestamp to avoid hotspotting. *)
Definition rowKey (deviceID : string) (t : Time) : string :=
  let reversed := compl64 (uint64 (uint64 (UnixMilli t))) in
  Sprintf "%s#%d" [ArgString deviceID; ArgUint64 reversed].

(** Create and return a Bigtable client.  The client is represented by
    nothing: the calls made through it carry their own arguments. *)
Definition createBigtableClient (w : World) (cfg : Config) : Prog Ev unit :=
  err <- call (NewClient (ProjectID cfg) (InstanceID cfg)) (new_client w) ;;
  match err with
  | Some e => Fatalf "Failed to create Bigtable client: %v" [ArgError e]
  | None => ret tt
  end.

(** Write a new row.  [tbl] is the table [client.Open] was given. *)
Definition writeRow (w : World) (tbl : string) (cfg : Config) (deviceID : string)
  : Prog Ev string :=
  let key := rowKey deviceID (time_now w) in
  let mut := [ mkSetCell (ColumnFamily cfg) "temp_c" (bigtable_now_temp w) "27.4";
               mkSetCell (ColumnFamily cfg) "hum_pct" (bigtable_now_hum w) "61" ] in
  err <- call (Apply tbl key mut) (apply w) ;;
  match err with
  | Some e => Fatalf "Failed to write row: %v" [ArgError e]
  | None => emit (Printed (OutWrote key)) ;; ret key
  end.

(** Read a single row by key. *)
Definition readRow (w : World) (tbl : string) (key : string) : Prog Ev unit :=
  err <- call (ReadRow tbl key) (read_row_err w) ;;
  match err with
  | Some e => Fatalf "Failed to read row: %v" [ArgError e]
  | None =>
      emit (Printed (OutReading key)) ;;
      for_each (read_row w) (fun '(fam, items) =>
        emit (Printed (OutFamily fam)) ;;
        for_each items (fun it => emit (Printed (OutItem it))))
  end.

(** Scan all rows with a specific prefix.  The callback prints the key of
    each row delivered and always asks for the next one; its lines, written
    while the call is in progress, follow the event of the call. *)
Definition scanRows (w : World) (tbl : string) (prefix : string) : Prog Ev unit :=
  emit (Printed (OutScanning prefix)) ;;
  err <- call (ReadRows tbl prefix 1) (scan_err w) ;;
  for_each (scan_rows w) (fun key => emit (Printed (OutRow key))) ;;
  match err with
  | Some e => Fatalf "Failed to scan rows: %v" [ArgError e]
  | None => ret tt
  end.

Definition main (w : World) : Prog Ev unit :=
  cfg <- loadConfig w ;;
  createBigtableClient w cfg ;;
  (* defer client.Close() *)
  let tbl := TableID cfg in
  rowKey <- writeRow w tbl cfg "sensor-42" ;;
  readRow w tbl rowKey ;;
  scanRows w tbl "sensor-42#" ;;
  emit Closed.

End BigTable.

(** * The warehouse example (BigQuery) *)

Module BigQuery.

(** [bigquery.NullFloat64]; [Float64] is the IEEE 754 binary64 bit
    pattern of the value. *)
Record NullFloat64 : Type := mkNullFloat64 {
  Float64 : Z;
  Valid : bool
}.

(** Row model matching the table schema. *)
Record EventRow : Type := mkEventRow {
  EventID : string;
  DeviceID : string;
  Timestamp : Time;
  Temperature : NullFloat64
}.

(** [bigquery.StructSaver] *)
Record StructSaver : Type := mkStructSaver {
  Struct : EventRow;
  InsertID : string
}.

(** Calls to the BigQuery service. *)
Inductive Call : Type :=
| NewClient (projectID : string)
| Put (datasetID tableID : string) (savers : list StructSaver)
| Read (queryStr : string)
| Next.

(** Lines written to standard output.  [OutEvent] is the line of one
    result row, with the temperature when it is not NULL. *)
Inductive Output : Type :=
| OutHeader (tableRef : string)
| OutEvent (eventID deviceID : string) (time : Time) (temp : option Z)
| OutStreaming
| OutInserted.

Abbreviation Ev := (Event Call Output).

(** What the outside world answers during one run.  The result iterator
    of the query yields [rows] and then [iter_end]: [None] for
    [iterator.Done], or the error of the fetch that failed. *)
Record World : Type := mkWorld {
  dotenv_load : option error;        (* godotenv.Load() *)
  getenv : string -> string;         (* os.Getenv *)
  time_now : Time;                   (* time.Now() in main *)
  new_client_main : option error;    (* bigquery.NewClient in main *)
  put : option error;                (* inserter.Put *)
  new_client_query : option error;   (* bigquery.NewClient in queryEventsTable *)
  read : option error;               (* q.Read *)
  rows : list EventRow;              (* it.Next, the rows *)
  iter_end : option error            (* it.Next after the last row *)
}.

Definition nl_tabs : string := String "010" (String "009" (String "009" "")).

(** The raw string literal of [queryEventsTable]. *)
Definition query_format : string :=
  nl_tabs ++ "SELECT event_id, device_id, timestamp, temperature" ++
  nl_tabs ++ "FROM %s" ++
  nl_tabs ++ "ORDER BY timestamp DESC" ++
  nl_tabs ++ "LIMIT 10".

Definition tableRef (projectID datasetID tableID : string) : string :=
  Sprintf "`%s.%s.%s`" [ArgString projectID; ArgString datasetID; ArgString tableID].

Definition queryStr (projectID datasetID tableID : string) : string :=
  Sprintf query_format [ArgString (tableRef projectID datasetID tableID)].

(** The [for] loop over the result iterator.  [iterator.Done] ends the
    loop and is not a failure of the call. *)
Fixpoint iterate (rows : list EventRow) (last : option error) : Prog Ev (option error) :=
  match rows with
  | [] =>
      err <- call Next last ;;
      match err with
      | None => ret None
      | Some e => ret (Some (Sprintf "iterator.Next: %w" [ArgError e]))
      end
  | row :: rows' =>
      call Next None ;;
      let tempStr :=
        if Valid (Temperature row) then Some (Float64 (Temperature row)) else None in
      emit (Printed (OutEvent (EventID row) (DeviceID row) (Timestamp row) tempStr)) ;;
      iterate rows' last
  end.

(** queryEventsTable queries the events table. *)
Definition queryEventsTable (w : World) (projectID datasetID tableID : string)
  : Prog Ev (option error) :=
  err <- call (NewClient projectID) (new_client_query w) ;;
  match err with
  | Some e => ret (Some (Sprintf "bigquery.NewClient: %w" [ArgError e]))
  | None =>
      (* defer client.Close() *)
      res <- (err <- call (Read (queryStr projectID datasetID tableID)) (read w) ;;
              match err with
              | Some e => ret (Some (Sprintf "query.Read: %w" [ArgError e]))
              | None =>
                  emit (Printed (OutHeader (tableRef projectID datasetID tableID))) ;;
                  iterate (rows w) (iter_end w)
              end) ;;
      emit Closed ;;
      ret res
  end.

(** The loop that builds the savers, one [append] per row. *)
Definition make_savers (rows : list EventRow) : list StructSaver :=
  fold_left (fun savers r =>
               (savers ++ [ {| Struct := r; InsertID := EventID r |} ])%list)
            rows [].

(** insertEvents streams rows into BigQuery with InsertID for
    deduplication. *)
Definition insertEvents (w : World) (datasetID tableID : string) (rows : list EventRow)
  : Prog Ev (option error) :=
  let savers := make_savers rows in
  emit (Printed OutStreaming) ;;
  err <- call (Put datasetID tableID savers) (put w) ;;
  match err with
  | Some e => ret (Some (Sprintf "inserter.Put: %w" [ArgError e]))
  | None => ret None
  end.

Definition main (w : World) : Prog Ev unit :=
  match dotenv_load w with
  | Some _ => emit (Logged "Warning: Could not load .env file.")
  | None => ret tt
  end ;;
  let projectID := getenv w "PROJECT_ID" in
  let datasetID := getenv w "BIG_QUERY_DATASET_ID" in
  let tableID := getenv w "BIG_QUERY_TABLE_ID" in
  (if ((projectID =? "") || (datasetID =? "") || (tableID =? ""))%string then
     Fatal "Error: Ensure PROJECT_ID, BIG_QUERY_DATASET_ID, and BIG_QUERY_TABLE_ID are set."
   else ret tt) ;;
  (if (projectID =? "your-gcp-project-id")%string then
     Fatal "Error: Please update PROJECT_ID in your .env file."
   else ret tt) ;;
  err <- call (NewClient projectID) (new_client_main w) ;;
  match err with
  | Some e => Fatalf "bigquery.NewClient: %v" [ArgError e]
  | None => ret tt
  end ;;
  (* defer client.Close() *)
  (if (getenv w "BIG_QUERY_INSERT_SAMPLE" =? "1")%string then
     let now := time_now w in
     let row := {| EventID := Sprintf "evt-%d" [ArgInt64 (UnixNano now)];
                   DeviceID := "device-123";
                   Timestamp := now;
                   Temperature := {| Float64 := 4628391558295165338; (* 27.35 *)
                                     Valid := true |} |} in
     err <- insertEvents w datasetID tableID [row] ;;
     match err with
     | Some e => Fatalf "insertEvents failed: %v" [ArgError e]
     | None => emit (Printed OutInserted)
     end
   else ret tt) ;;
  err <- queryEventsTable w projectID datasetID tableID ;;
  match err with
  | Some e => Fatalf "Failed to run query: %v" [ArgError e]
  | None => ret tt
  end ;;
  emit Closed.

End BigQuery.

(** * Notions used in the statements *)

(** No external call among the events. *)
Definition no_calls {C O : Type} (tr : list (Event C O)) : Prop :=
  Forall (fun e => is_call e = false) tr.

(** Events that are no call at all. *)
Definition quiet {C O : Type} (tr : list (Event C O)) : bool :=
  forallb (fun e => negb (is_call e)) tr.

(** A trace in which the first failed call, if there is one, is the last
    external call. *)
Fixpoint stops_at_failure {C O : Type} (tr : list (Event C O)) : bool :=
  match tr with
  | [] => true
  | e :: tr' =>
      if is_failed_call e then forallb (fun e' => negb (is_call e')) tr'
      else stops_at_failure tr'
  end.

(** The lines of result rows the warehouse example prints. *)
Definition is_result_line (e : BigQuery.Ev) : bool :=
  match e with
  | Printed (BigQuery.OutEvent _ _ _ _) => true
  | _ => false
  end.

Definition result_lines (tr : list BigQuery.Ev) : nat :=
  List.length (filter is_result_line tr).

(** The events of the result loop for the rows the iterator yields. *)
Definition row_events (row : BigQuery.EventRow) : list BigQuery.Ev :=
  [ Called BigQuery.Next None;
    Printed (BigQuery.OutEvent (BigQuery.EventID row) (BigQuery.DeviceID row)
               (BigQuery.Timestamp row)
               (if BigQuery.Valid (BigQuery.Temperature row)
                then Some (BigQuery.Float64 (BigQuery.Temperature row))
                else None)) ].

(** The lines [readRow] prints for one family of the row read. *)
Definition family_events (entry : string * list BigTable.ReadItem) : list BigTable.Ev :=
  Printed (BigTable.OutFamily (fst entry))
  :: map (fun it => Printed (BigTable.OutItem it)) (snd entry).

(** The same world, with a [.env] file that loads. *)
Definition with_dotenv_loaded (w : BigQuery.World) : BigQuery.World :=
  {| BigQuery.dotenv_load := None;
     BigQuery.getenv := BigQuery.getenv w;
     BigQuery.time_now := BigQuery.time_now w;
     BigQuery.new_client_main := BigQuery.new_client_main w;
     BigQuery.put := BigQuery.put w;
     BigQuery.new_client_query := BigQuery.new_client_query w;
     BigQuery.read := BigQuery.read w;
     BigQuery.rows := BigQuery.rows w;
     BigQuery.iter_end := BigQuery.iter_end w |}.

(** ** Sample worlds *)

(** An environment with the three identifiers of the warehouse example
    and the request for a sample insert. *)
Definition sample_env (k : string) : string :=
  if (k =? "PROJECT_ID")%string then "demo-project"
  else if (k =? "BIG_QUERY_DATASET_ID")%string then "telemetry"
  else if (k =? "BIG_QUERY_TABLE_ID")%string then "events"
  else if (k =? "BIG_QUERY_INSERT_SAMPLE")%string then "1"
  else "".

Definition empty_env (k : string) : string := "".

Definition sample_row : BigQuery.EventRow :=
  BigQuery.mkEventRow "evt-1" "device-123" (mkTime 1700000000 0)
    (BigQuery.mkNullFloat64 4628391558295165338 true).

(** The service answers every call; the query has two result rows. *)
Definition bq_world_ok : BigQuery.World :=
  BigQuery.mkWorld None sample_env (mkTime 1700000000 0)
    None None None None [sample_row; sample_row] None.

(** No [.env] file, and no variable set. *)
Definition bq_world_no_config : BigQuery.World :=
  BigQuery.mkWorld (Some "open .env: no such file or directory") empty_env
    (mkTime 1700000000 0) None None None None [] None.

(** No [.env] file, the variables set in the process environment. *)
Definition bq_world_no_dotenv : BigQuery.World :=
  BigQuery.mkWorld (Some "open .env: no such file or directory") sample_env
    (mkTime 1700000000 0) None None None None [sample_row] None.

(** The streaming insert fails. *)
Definition bq_world_put_fails : BigQuery.World :=
  BigQuery.mkWorld None sample_env (mkTime 1700000000 0)
    None (Some "deadline exceeded") None None [sample_row] None.

(** A [.env] file that loads, but sets none of the variables. *)
Definition bt_world_no_config : BigTable.World :=
  BigTable.mkWorld None empty_env (mkTime 1700000000 0) 1 2
    None None None [] [] None.

(** No [.env] file. *)
Definition bt_world_no_dotenv : BigTable.World :=
  BigTable.mkWorld (Some "open .env: no such file or directory") empty_env
    (mkTime 1700000000 0) 1 2 None None None [] [] None.

(** The write fails. *)
Definition bt_world_apply_fails : BigTable.World :=
  BigTable.mkWorld None empty_env (mkTime 1700000000 0) 1 2
    None (Some "deadline exceeded") None [] [] None.

(** ** Observations on traces *)

(** The external calls of a trace, in order, without their outcomes. *)
Definition calls {C O : Type} (tr : list (Event C O)) : list C :=
  flat_map (fun e => match e with
                     | Called c _ => [c]
                     | _ => []
                     end) tr.

(** How many times a client is closed. *)
Definition closes {C O : Type} (tr : list (Event C O)) : nat :=
  List.length (filter (fun e => match e with
                                | Closed => true
                                | _ => false
                                end) tr).

(** The lines of a trace, in order. *)
Definition printed {C O : Type} (tr : list (Event C O)) : list O :=
  flat_map (fun e => match e with
                     | Printed o => [o]
                     | _ => []
                     end) tr.

(** The calls a run of the wide-column example makes when none fails. *)
Definition bt_planned_calls (w : BigTable.World) : list BigTable.Call :=
  let tbl := BigTable.getenv w "TABLE_ID" in
  let fam := BigTable.getenv w "COLUMN_FAMILY" in
  let key := BigTable.rowKey "sensor-42" (BigTable.time_now w) in
  [ BigTable.NewClient (BigTable.getenv w "PROJECT_ID") (BigTable.getenv w "INSTANCE_ID");
    BigTable.Apply tbl key
      [ BigTable.mkSetCell fam "temp_c" (BigTable.bigtable_now_temp w) "27.4";
        BigTable.mkSetCell fam "hum_pct" (BigTable.bigtable_now_hum w) "61" ];
    BigTable.ReadRow tbl key;
    BigTable.ReadRows tbl "sensor-42#" 1 ].

(** The lines [readRow] prints for a row. *)
Definition row_lines (r : BigTable.Row) : list BigTable.Output :=
  flat_map (fun entry : string * list BigTable.ReadItem =>
              BigTable.OutFamily (fst entry) :: map BigTable.OutItem (snd entry)) r.

(** How many of the planned calls a run of the wide-column example makes:
    up to and including the first one that fails, and none when the [.env]
    file does not load. *)
Definition bt_calls_made (w : BigTable.World) : nat :=
  match BigTable.dotenv_load w, BigTable.new_client w, BigTable.apply w,
        BigTable.read_row_err w with
  | Some _, _, _, _ => 0
  | None, Some _, _, _ => 1
  | None, None, Some _, _ => 2
  | None, None, None, Some _ => 3
  | None, None, None, None => 4
  end.

(** The saver of the sample row of the warehouse example. *)
Definition sample_saver (w : BigQuery.World) : BigQuery.StructSaver :=
  let now := BigQuery.time_now w in
  let id := Sprintf "evt-%d" [ArgInt64 (UnixNano now)] in
  BigQuery.mkStructSaver
    (BigQuery.mkEventRow id "device-123" now
       (BigQuery.mkNullFloat64 4628391558295165338 true))
    id.

(** The calls a run of the warehouse example makes when none fails. *)
Definition bq_planned_calls (w : BigQuery.World) : list BigQuery.Call :=
  let p := BigQuery.getenv w "PROJECT_ID" in
  let d := BigQuery.getenv w "BIG_QUERY_DATASET_ID" in
  let t := BigQuery.getenv w "BIG_QUERY_TABLE_ID" in
  (BigQuery.NewClient p
   :: (if (BigQuery.getenv w "BIG_QUERY_INSERT_SAMPLE" =? "1")%string
       then [BigQuery.Put d t [sample_saver w]] else [])
   ++ BigQuery.NewClient p
   :: BigQuery.Read (BigQuery.queryStr p d t)
   :: repeat BigQuery.Next (S (List.length (BigQuery.rows w))))%list.

(** The line printed for one result row: the temperature is shown only
    when it is not NULL. *)
Definition result_line (row : BigQuery.EventRow) : BigQuery.Output :=
  BigQuery.OutEvent (BigQuery.EventID row) (BigQuery.DeviceID row)
    (BigQuery.Timestamp row)
    (if BigQuery.Valid (BigQuery.Temperature row)
     then Some (BigQuery.Float64 (BigQuery.Temperature row))
     else None).

(** The last event of a trace. *)
Definition last_event {C O : Type} (tr : list (Event C O)) : option (Event C O) :=
  hd_error (rev tr).

(** * Properties *)

(** ** Machine integers *)

Lemma uint64_range (z : Z) : 0 <= uint64 z < 2 ^ 64.
Proof. unfold uint64. apply Z.mod_pos_bound. lia. Qed.

Lemma uint64_idem (z : Z) : uint64 (uint64 z) = uint64 z.
Proof. unfold uint64. apply Z.mod_mod. lia. Qed.

Lemma int64_range (z : Z) : - 2 ^ 63 <= int64 z < 2 ^ 63.
Proof.
  unfold int64.
  pose proof (Z.mod_pos_bound (z + 2 ^ 63) (2 ^ 64) ltac:(lia)). lia.
Qed.

Lemma int64_small (z : Z) : - 2 ^ 63 <= z < 2 ^ 63 -> int64 z = z.
Proof. intros H. unfold int64. rewrite Z.mod_small; lia. Qed.

(** [int64] only changes a value by a multiple of 2^64. *)
Lemma int64_congr (z : Z) : exists k, int64 z = z + k * 2 ^ 64.
Proof.
  unfold int64. exists (- ((z + 2 ^ 63) / 2 ^ 64)).
  pose proof (Z.div_mod (z + 2 ^ 63) (2 ^ 64) ltac:(lia)). lia.
Qed.

Lemma uint64_signed (m : Z) :
  - 2 ^ 63 <= m < 2 ^ 63 -> uint64 m = if m <? 0 then m + 2 ^ 64 else m.
Proof.
  intros H. unfold uint64. destruct (Z.ltb_spec m 0).
  - symmetry. apply Z.mod_unique with (q := -1); lia.
  - apply Z.mod_small. lia.
Qed.

(** On a 64-bit word the complement is the subtraction from the largest
    word. *)
Lemma compl64_sub (x : Z) : 0 <= x < 2 ^ 64 -> compl64 x = 2 ^ 64 - 1 - x.
Proof.
  intros [H0 H1]. unfold compl64.
  assert (Hlog : Z.log2 x < 64).
  { destruct (Z.eq_dec x 0) as [-> | Hx]; [reflexivity |].
    apply Z.log2_lt_pow2; lia. }
  change (2 ^ 64 - 1) with (Z.ones 64).
  rewrite <- (Z.ldiff_ones_l_low x 64 H0 Hlog).
  symmetry. apply Z.sub_nocarry_ldiff.
  apply Z.ldiff_ones_r_low; assumption.
Qed.

Lemma compl64_range (x : Z) : 0 <= x < 2 ^ 64 -> 0 <= compl64 x < 2 ^ 64.
Proof. intros H. rewrite compl64_sub by assumption. lia. Qed.

Lemma compl64_testbit (x i : Z) :
  0 <= i < 64 -> Z.testbit (compl64 x) i = negb (Z.testbit x i).
Proof.
  intros H. unfold compl64. rewrite Z.lxor_spec.
  change (2 ^ 64 - 1) with (Z.ones 64).
  rewrite Z.ones_spec_low by assumption.
  apply xorb_true_r.
Qed.

(** ** Decimal numerals *)

Lemma digit_code (d : Z) : 0 <= d < 10 -> N_of_ascii (digit d) = Z.to_N (48 + d).
Proof. intros H. unfold digit. apply N_ascii_embedding. lia. Qed.

Lemma digit_is_digit (d : Z) : 0 <= d < 10 -> is_digit (digit d) = true.
Proof.
  intros H. unfold is_digit. rewrite digit_code by assumption.
  apply andb_true_intro; split; apply N.leb_le; lia.
Qed.

Lemma digit_val_digit (d : Z) : 0 <= d < 10 -> digit_val (digit d) = d.
Proof. intros H. unfold digit_val. rewrite digit_code by assumption. lia. Qed.

Lemma is_digit_val (c : ascii) : is_digit c = true -> 0 <= digit_val c < 10.
Proof.
  unfold is_digit, digit_val. intros H.
  apply andb_prop in H as [H1 H2].
  apply N.leb_le in H1. apply N.leb_le in H2. lia.
Qed.

Lemma length_append (a b : string) :
  String.length (a ++ b) = (String.length a + String.length b)%nat.
Proof. induction a as [| c a IH]; simpl; [reflexivity | now rewrite IH]. Qed.

Lemma append_assoc (a b c : string) : (a ++ b) ++ c = a ++ (b ++ c).
Proof. induction a as [| x a IH]; simpl; [reflexivity | now rewrite IH]. Qed.

Lemma append_empty_r (a : string) : a ++ "" = a.
Proof. induction a as [| x a IH]; simpl; [reflexivity | now rewrite IH]. Qed.

Lemma all_digits_append (a b : string) :
  all_digits (a ++ b) = all_digits a && all_digits b.
Proof.
  induction a as [| c a IH]; simpl; [reflexivity |].
  rewrite IH. apply andb_assoc.
Qed.

Lemma numeral_value_append (a b : string) :
  numeral_value (a ++ b)
  = numeral_value a * 10 ^ Z.of_nat (String.length b) + numeral_value b.
Proof.
  induction a as [| c a IH]; simpl; [reflexivity |].
  rewrite IH, length_append, Nat2Z.inj_add, Z.pow_add_r by lia. ring.
Qed.

Lemma numeral_value_bound (s : string) :
  all_digits s = true -> 0 <= numeral_value s < 10 ^ Z.of_nat (String.length s).
Proof.
  induction s as [| c s IH]; cbn [numeral_value String.length all_digits];
    intros H; [simpl; lia |].
  apply andb_prop in H as [Hc Hs].
  specialize (IH Hs). apply is_digit_val in Hc.
  rewrite Nat2Z.inj_succ, Z.pow_succ_r by lia. nia.
Qed.

Lemma prints_as_canonical (u : Z) (ds : string) :
  prints_as u ds -> canonical_numeral ds.
Proof.
  intros (Hd & Hv & c & s' & -> & Hpos & Hzero).
  split; [assumption |]. split; [discriminate |].
  pose proof (numeral_value_bound _ Hd) as Hb.
  destruct (Z.eq_dec u 0) as [Hu | Hu].
  - left. auto.
  - right. exists c, s'. split; [reflexivity |]. apply Hpos. lia.
Qed.

Lemma fmtInteger_spec (fuel : nat) :
  forall (u : Z) (buf : string),
    0 <= u < 10 ^ Z.of_nat (S fuel) ->
    exists ds, fmtInteger fuel u buf = ds ++ buf /\ prints_as u ds.
Proof.
  assert (Hlast : forall u, 0 <= u < 10 -> prints_as u (String (digit u) "")).
  { intros u Hu. unfold prints_as. cbn [all_digits numeral_value String.length].
    rewrite digit_is_digit, digit_val_digit by assumption.
    repeat split; [simpl; lia |].
    exists (digit u), "". repeat split.
    - intros Hpos Heq.
      assert (Hv : digit_val (digit u) = 0) by (rewrite Heq; reflexivity).
      rewrite digit_val_digit in Hv by assumption. lia.
    - intros ->. reflexivity. }
  induction fuel as [| fuel IH]; intros u buf Hu.
  - exists (String (digit u) ""). split; [reflexivity |].
    apply Hlast. simpl in Hu. lia.
  - cbn [fmtInteger]. destruct (Z.leb_spec 10 u) as [Hge | Hlt].
    + rewrite Nat2Z.inj_succ, Z.pow_succ_r in Hu by lia.
      assert (Hq : 0 < u / 10 < 10 ^ Z.of_nat (S fuel)).
      { split; [apply Z.div_str_pos; lia |].
        apply Z.div_lt_upper_bound; lia. }
      assert (Hr : 0 <= u - u / 10 * 10 < 10).
      { pose proof (Z.mod_pos_bound u 10 ltac:(lia)).
        pose proof (Z.div_mod u 10 ltac:(lia)). lia. }
      destruct (IH (u / 10) (String (digit (u - u / 10 * 10)) buf) ltac:(lia))
        as (ds & Heq & Hd & Hv & c & s' & -> & Hpos & _).
      exists (String c s' ++ String (digit (u - u / 10 * 10)) "").
      split.
      * rewrite Heq, append_assoc. reflexivity.
      * unfold prints_as. rewrite all_digits_append, numeral_value_append, Hd, Hv.
        cbn [all_digits numeral_value String.length].
        rewrite digit_is_digit, digit_val_digit by assumption.
        repeat split; [simpl; lia |].
        exists c, (s' ++ String (digit (u - u / 10 * 10)) "").
        repeat split; [intros _; apply Hpos; lia | lia].
    + exists (String (digit u) ""). split; [reflexivity |].
      apply Hlast. lia.
Qed.

Lemma FormatUint_spec (u : Z) : 0 <= u < 2 ^ 64 -> prints_as u (FormatUint u).
Proof.
  intros Hu. unfold FormatUint.
  destruct (fmtInteger_spec 19 u "") as (ds & Heq & Hp).
  - change (10 ^ Z.of_nat 20) with 100000000000000000000.
    change (2 ^ 64) with 18446744073709551616 in Hu. lia.
  - rewrite Heq, append_empty_r. assumption.
Qed.

(** ** Byte-wise order of strings *)

Lemma ascii_compare_refl (c : ascii) : Ascii.compare c c = Eq.
Proof. apply N.compare_refl. Qed.

Lemma compare_append_prefix (p a b : string) :
  String.compare (p ++ a) (p ++ b) = String.compare a b.
Proof.
  induction p as [| c p IH]; simpl; [reflexivity |].
  now rewrite ascii_compare_refl.
Qed.

(** On numerals of the same width the byte-wise order is the order of the
    values. *)
Lemma compare_numerals (a : string) :
  forall b : string,
    all_digits a = true -> all_digits b = true ->
    String.length a = String.length b ->
    String.compare a b = (numeral_value a ?= numeral_value b).
Proof.
  induction a as [| c a IH]; intros [| d b] Ha Hb Hlen; try discriminate.
  - reflexivity.
  - cbn [all_digits] in Ha, Hb.
    apply andb_prop in Ha as [Hc Ha]. apply andb_prop in Hb as [Hd Hb].
    injection Hlen as Hlen.
    pose proof (numeral_value_bound _ Ha) as Ba.
    pose proof (numeral_value_bound _ Hb) as Bb.
    apply is_digit_val in Hc, Hd.
    cbn [String.compare numeral_value]. rewrite <- Hlen in *.
    set (P := 10 ^ Z.of_nat (String.length a)) in *.
    unfold Ascii.compare. unfold digit_val in *.
    destruct (N.compare_spec (N_of_ascii c) (N_of_ascii d)) as [E | L | G].
    + rewrite E, (IH b Ha Hb Hlen).
      symmetry. apply Z.add_compare_mono_l.
    + symmetry. apply Z.compare_lt_iff. nia.
    + symmetry. apply Z.compare_gt_iff. nia.
Qed.

Lemma append_inv_head (p a b : string) : p ++ a = p ++ b -> a = b.
Proof.
  induction p as [| c p IH]; simpl; intros H; [assumption |].
  injection H as H. auto.
Qed.

(** A numeral without leading zero is at least the power of ten of its
    width. *)
Lemma prints_as_width (u : Z) (ds : string) :
  0 < u -> prints_as u ds ->
  10 ^ (Z.of_nat (String.length ds) - 1) <= u < 10 ^ Z.of_nat (String.length ds).
Proof.
  intros Hu (Hd & Hv & c & s' & -> & Hpos & _).
  pose proof (numeral_value_bound _ Hd) as Hb. rewrite Hv in Hb.
  split; [| apply Hb].
  cbn [all_digits] in Hd. apply andb_prop in Hd as [Hc Hs].
  pose proof (numeral_value_bound _ Hs) as Hb'.
  cbn [numeral_value String.length] in *.
  rewrite Nat2Z.inj_succ. replace (Z.succ (Z.of_nat (String.length s')) - 1)
    with (Z.of_nat (String.length s')) by lia.
  assert (Hc0 : digit_val c <> 0).
  { intros H0. apply (Hpos Hu). unfold digit_val in H0.
    rewrite <- (ascii_N_embedding c).
    replace (N_of_ascii c) with 48%N by lia. reflexivity. }
  apply is_digit_val in Hc. nia.
Qed.

(** ** The row key *)

Lemma rowKey_unfold (deviceID : string) (t : Time) :
  BigTable.rowKey deviceID t
  = deviceID ++ "#" ++ FormatUint (compl64 (uint64 (UnixMilli t))).
Proof.
  unfold BigTable.rowKey. rewrite uint64_idem.
  cbn [Sprintf Ascii.eqb Bool.eqb is_verb orb formatArg].
  cbn [append]. now rewrite append_empty_r.
Qed.

(** The inverted value of the key, as a number. *)
Lemma reversed_value (t : Time) :
  compl64 (uint64 (UnixMilli t)) = 2 ^ 64 - 1 - UnixMilli t mod 2 ^ 64.
Proof. apply compl64_sub, uint64_range. Qed.

Lemma reversed_range (t : Time) : 0 <= compl64 (uint64 (UnixMilli t)) < 2 ^ 64.
Proof. apply compl64_range, uint64_range. Qed.

Lemma rowKey_numeral (deviceID : string) (t : Time) :
  exists numeral,
    BigTable.rowKey deviceID t = deviceID ++ "#" ++ numeral /\
    prints_as (compl64 (uint64 (UnixMilli t))) numeral.
Proof.
  exists (FormatUint (compl64 (uint64 (UnixMilli t)))).
  split; [apply rowKey_unfold | apply FormatUint_spec, reversed_range].
Qed.

(** The key depends on the timestamp through its millisecond value only. *)
Lemma rowKey_millis (d1 d2 : string) (t1 t2 : Time) :
  d1 = d2 -> UnixMilli t1 = UnixMilli t2 ->
  BigTable.rowKey d1 t1 = BigTable.rowKey d2 t2.
Proof. intros -> H. unfold BigTable.rowKey. now rewrite H. Qed.

(** Keys of one device with numerals of the same width are ordered as
    their inverted values. *)
Lemma rowKey_compare (d : string) (t1 t2 : Time) :
  String.length (BigTable.rowKey d t1) = String.length (BigTable.rowKey d t2) ->
  String.compare (BigTable.rowKey d t2) (BigTable.rowKey d t1)
  = (compl64 (uint64 (UnixMilli t2)) ?= compl64 (uint64 (UnixMilli t1))).
Proof.
  destruct (rowKey_numeral d t1) as (n1 & E1 & Hd1 & Hv1 & _).
  destruct (rowKey_numeral d t2) as (n2 & E2 & Hd2 & Hv2 & _).
  rewrite E1, E2. intros Hlen.
  rewrite !length_append in Hlen.
  rewrite !compare_append_prefix, <- Hv1, <- Hv2.
  apply compare_numerals; try assumption. lia.
Qed.

(** The inverted value decreases when the millisecond value increases,
    as long as the epoch is not crossed. *)
Lemma reversed_decreasing (t1 t2 : Time) :
  UnixMilli t1 < UnixMilli t2 ->
  same_side_of_epoch t1 t2 ->
  compl64 (uint64 (UnixMilli t2)) < compl64 (uint64 (UnixMilli t1)).
Proof.
  intros Hlt Hside. unfold same_side_of_epoch in Hside.
  rewrite !compl64_sub by apply uint64_range.
  pose proof (int64_range (unixSec t1 * 1000 + nsec t1 / 1000000)) as R1.
  pose proof (int64_range (unixSec t2 * 1000 + nsec t2 / 1000000)) as R2.
  fold (UnixMilli t1) in R1. fold (UnixMilli t2) in R2.
  rewrite !uint64_signed by assumption.
  destruct (Z.ltb_spec (UnixMilli t1) 0), (Z.ltb_spec (UnixMilli t2) 0); lia.
Qed.

(** Width of the key for the timestamps whose inverted value has twenty
    digits: from the epoch up to millisecond 8446744073709551615. *)
Lemma rowKey_width_after_epoch (d : string) (t : Time) :
  0 <= UnixMilli t <= 8446744073709551615 ->
  String.length (BigTable.rowKey d t) = (String.length d + 21)%nat.
Proof.
  intros Hm.
  destruct (rowKey_numeral d t) as (n & E & Hp).
  rewrite E, !length_append. cbn [String.length].
  assert (Hv : compl64 (uint64 (UnixMilli t)) = 2 ^ 64 - 1 - UnixMilli t).
  { rewrite reversed_value, Z.mod_small; [reflexivity |].
    change (2 ^ 64) with 18446744073709551616. lia. }
  rewrite Hv in Hp.
  change (2 ^ 64) with 18446744073709551616 in Hp.
  apply prints_as_width in Hp; [| lia].
  set (w := String.length n) in *.
  assert (Hw : Z.of_nat w = 20).
  { destruct Hp as [Hlo Hhi].
    assert (19 < Z.of_nat w).
    { apply (Z.pow_lt_mono_r_iff 10); [lia | lia |].
      change (10 ^ 19) with 10000000000000000000. lia. }
    assert (Z.of_nat w - 1 < 20).
    { apply (Z.pow_lt_mono_r_iff 10); [lia | lia |].
      change (10 ^ 20) with 100000000000000000000. lia. }
    lia. }
  lia.
Qed.

Lemma rowKey_descending_after_epoch (d : string) (t1 t2 : Time) :
  0 <= UnixMilli t1 -> UnixMilli t1 < UnixMilli t2 ->
  UnixMilli t2 <= 8446744073709551615 ->
  sorts_before (BigTable.rowKey d t2) (BigTable.rowKey d t1).
Proof.
  intros H0 Hlt Hmax. unfold sorts_before.
  rewrite rowKey_compare.
  - apply Z.compare_lt_iff, reversed_decreasing; [assumption |].
    unfold same_side_of_epoch. lia.
  - rewrite !rowKey_width_after_epoch by lia. reflexivity.
Qed.

(** Timestamps one millisecond apart have millisecond values that differ
    by one, up to the wrap-around of [int64]. *)
Lemma UnixMilli_succ (t1 t2 : Time) :
  since_epoch t2 - since_epoch t1 = 1000000 ->
  exists k, UnixMilli t2 = UnixMilli t1 + 1 + k * 2 ^ 64.
Proof.
  unfold since_epoch, UnixMilli. intros H.
  assert (Hq : forall t, unixSec t * 1000 + nsec t / 1000000
                         = (unixSec t * 1000000000 + nsec t) / 1000000).
  { intros t.
    replace (unixSec t * 1000000000) with (unixSec t * 1000 * 1000000) by ring.
    rewrite Z.div_add_l by lia. reflexivity. }
  rewrite !Hq.
  replace (unixSec t2 * 1000000000 + nsec t2)
    with (1 * 1000000 + (unixSec t1 * 1000000000 + nsec t1)) by lia.
  rewrite Z.div_add_l by lia.
  set (m := (unixSec t1 * 1000000000 + nsec t1) / 1000000).
  destruct (int64_congr (1 + m)) as [k2 E2].
  destruct (int64_congr m) as [k1 E1].
  exists (k2 - k1). lia.
Qed.

Lemma rowKey_neq_of_millis (d : string) (t1 t2 : Time) :
  UnixMilli t1 <> UnixMilli t2 -> BigTable.rowKey d t1 <> BigTable.rowKey d t2.
Proof.
  intros Hne Heq.
  destruct (rowKey_numeral d t1) as (n1 & E1 & _ & Hv1 & _).
  destruct (rowKey_numeral d t2) as (n2 & E2 & _ & Hv2 & _).
  rewrite E1, E2 in Heq.
  apply append_inv_head in Heq. cbn [append] in Heq. injection Heq as Heq.
  rewrite Heq in Hv1. rewrite Hv1 in Hv2.
  rewrite !compl64_sub in Hv2 by apply uint64_range.
  pose proof (int64_range (unixSec t1 * 1000 + nsec t1 / 1000000)) as R1.
  pose proof (int64_range (unixSec t2 * 1000 + nsec t2 / 1000000)) as R2.
  fold (UnixMilli t1) in R1. fold (UnixMilli t2) in R2.
  rewrite !uint64_signed in Hv2 by assumption.
  destruct (Z.ltb_spec (UnixMilli t1) 0), (Z.ltb_spec (UnixMilli t2) 0); lia.
Qed.

Lemma UnixMilli_range (t : Time) : - 2 ^ 63 <= UnixMilli t < 2 ^ 63.
Proof. apply int64_range. Qed.

(** *** C2 *)

(** C2. For every device identifier and timestamp, the row key is the
    device identifier, the separator ["#"], and the decimal numeral (digits
    only, no leading zero) of the 64-bit word whose bits are the complements
    of the bits of the timestamp's millisecond value. *)
Theorem rowKey_layout (deviceID : string) (t : Time) :
  exists numeral,
    BigTable.rowKey deviceID t = deviceID ++ "#" ++ numeral /\
    canonical_numeral numeral /\
    0 <= numeral_value numeral < 2 ^ 64 /\
    forall i, 0 <= i < 64 ->
      Z.testbit (numeral_value numeral) i = negb (Z.testbit (UnixMilli t) i).
Proof.
  destruct (rowKey_numeral deviceID t) as (n & E & Hp).
  exists n. split; [exact E |]. split; [exact (prints_as_canonical _ _ Hp) |].
  destruct Hp as (_ & Hv & _). rewrite Hv.
  split; [apply reversed_range |].
  intros i Hi. rewrite compl64_testbit by assumption.
  unfold uint64. rewrite Z.mod_pow2_bits_low by lia. reflexivity.
Qed.

(** *** C3 *)

(** C3. For every timestamp the number written in the row key is
    2^64 - 1 - (millis mod 2^64); for a negative millisecond value this is
    -millis - 1, for a non-negative one 2^64 - 1 - millis. *)
Theorem rowKey_inverted_value (deviceID : string) (t : Time) :
  exists numeral,
    BigTable.rowKey deviceID t = deviceID ++ "#" ++ numeral /\
    all_digits numeral = true /\
    numeral_value numeral = 2 ^ 64 - 1 - UnixMilli t mod 2 ^ 64 /\
    (UnixMilli t < 0 -> numeral_value numeral = - UnixMilli t - 1) /\
    (0 <= UnixMilli t -> numeral_value numeral = 2 ^ 64 - 1 - UnixMilli t).
Proof.
  destruct (rowKey_numeral deviceID t) as (n & E & Hd & Hv & _).
  exists n. split; [exact E |]. split; [exact Hd |].
  rewrite Hv, reversed_value.
  pose proof (UnixMilli_range t) as R.
  pose proof (uint64_signed _ R) as Hu. unfold uint64 in Hu.
  split; [reflexivity |].
  destruct (Z.ltb_spec (UnixMilli t) 0); split; lia.
Qed.

(** *** C8 *)

(** C8. The row-key derivation is deterministic: two calls with the same
    device identifier and the same timestamp produce the same key. *)
Theorem rowKey_deterministic (d1 d2 : string) (t1 t2 : Time) :
  d1 = d2 -> t1 = t2 -> BigTable.rowKey d1 t1 = BigTable.rowKey d2 t2.
Proof. intros Hd Ht. apply rowKey_millis; [exact Hd | now rewrite Ht]. Qed.

Lemma rowKey_deterministic_witness :
  BigTable.rowKey "sensor-42" (mkTime 1700000000 123456789)
  = BigTable.rowKey "sensor-42" (mkTime 1700000000 123456789).
Proof.
  apply (rowKey_deterministic "sensor-42" "sensor-42"
           (mkTime 1700000000 123456789) (mkTime 1700000000 123456789));
    reflexivity.
Defined.

(** *** C1 *)

(** C1, as the code has it. For every device identifier and timestamps
    whose millisecond values satisfy m1 < m2, lie on the same side of the
    Unix epoch, and give keys of the same length (numerals of the same
    width), the key of the later timestamp sorts before the key of the
    earlier one. *)
Theorem rowKey_sorts_descending (d : string) (t1 t2 : Time) :
  UnixMilli t1 < UnixMilli t2 ->
  same_side_of_epoch t1 t2 ->
  String.length (BigTable.rowKey d t1) = String.length (BigTable.rowKey d t2) ->
  sorts_before (BigTable.rowKey d t2) (BigTable.rowKey d t1).
Proof.
  intros Hlt Hside Hwidth. unfold sorts_before.
  rewrite (rowKey_compare d t1 t2 Hwidth).
  apply Z.compare_lt_iff.
  apply reversed_decreasing; assumption.
Qed.

Lemma rowKey_sorts_descending_witness :
  sorts_before (BigTable.rowKey "dev" (mkTime 1700000000 124000000))
               (BigTable.rowKey "dev" (mkTime 1700000000 123000000)).
Proof.
  apply (rowKey_sorts_descending "dev"
           (mkTime 1700000000 123000000) (mkTime 1700000000 124000000)).
  - vm_compute. reflexivity.
  - unfold same_side_of_epoch. vm_compute. split; intros H; exact H.
  - vm_compute. reflexivity.
Defined.

(** C1 as stated fails on the code: two timestamps within one millisecond
    get the same key, and of two timestamps on either side of the epoch
    whose numerals have the same width the later one sorts last. *)
Lemma rowKey_sorts_descending_counterexample :
  (valid_time epoch /\ valid_time epoch_half_milli /\
   Before epoch epoch_half_milli /\
   BigTable.rowKey "sensor-42" epoch_half_milli = BigTable.rowKey "sensor-42" epoch /\
   ~ sorts_before (BigTable.rowKey "sensor-42" epoch_half_milli)
                  (BigTable.rowKey "sensor-42" epoch))
  /\
  (valid_time far_past /\ valid_time far_future /\
   Before far_past far_future /\
   BigTable.rowKey "sensor-42" far_past = "sensor-42#1000000000000000000" /\
   BigTable.rowKey "sensor-42" far_future = "sensor-42#9223372036854775808" /\
   String.length (BigTable.rowKey "sensor-42" far_past)
   = String.length (BigTable.rowKey "sensor-42" far_future) /\
   ~ sorts_before (BigTable.rowKey "sensor-42" far_future)
                  (BigTable.rowKey "sensor-42" far_past)).
Proof.
  split.
  - repeat split; try (vm_compute; congruence).
    right. vm_compute. split; reflexivity.
  - repeat split; try (vm_compute; congruence).
    left. vm_compute. reflexivity.
Qed.

(** *** C9 *)

(** C9, as the code has it. For the device identifier ["sensor-42"] and
    two timestamps exactly one millisecond apart, the two keys differ; the
    key of the later timestamp sorts first when the two millisecond values
    lie on the same side of the Unix epoch and the keys have the same
    length, which is the case for every earlier timestamp from the epoch up
    to millisecond 8446744073709551614. *)
Theorem sensor42_one_milli_apart (t1 t2 : Time) :
  since_epoch t2 - since_epoch t1 = 1000000 ->
  BigTable.rowKey "sensor-42" t1 <> BigTable.rowKey "sensor-42" t2 /\
  (same_side_of_epoch t1 t2 ->
   String.length (BigTable.rowKey "sensor-42" t1)
   = String.length (BigTable.rowKey "sensor-42" t2) ->
   sorts_before (BigTable.rowKey "sensor-42" t2) (BigTable.rowKey "sensor-42" t1)) /\
  (0 <= UnixMilli t1 < 8446744073709551615 ->
   sorts_before (BigTable.rowKey "sensor-42" t2) (BigTable.rowKey "sensor-42" t1)).
Proof.
  intros Hgap.
  destruct (UnixMilli_succ t1 t2 Hgap) as [k Hk].
  pose proof (UnixMilli_range t1) as R1.
  pose proof (UnixMilli_range t2) as R2.
  change (2 ^ 63) with 9223372036854775808 in R1, R2.
  change (2 ^ 64) with 18446744073709551616 in Hk.
  split; [| split].
  - apply rowKey_neq_of_millis. lia.
  - intros Hside Hlen. unfold sorts_before.
    rewrite (rowKey_compare "sensor-42" t1 t2 Hlen).
    apply Z.compare_lt_iff, reversed_decreasing; [| exact Hside].
    unfold same_side_of_epoch in Hside. lia.
  - intros Hm. apply rowKey_descending_after_epoch; lia.
Qed.

Lemma sensor42_one_milli_apart_witness :
  BigTable.rowKey "sensor-42" (mkTime 1700000000 999500000)
  <> BigTable.rowKey "sensor-42" (mkTime 1700000001 500000) /\
  sorts_before (BigTable.rowKey "sensor-42" (mkTime 1700000001 500000))
               (BigTable.rowKey "sensor-42" (mkTime 1700000000 999500000)).
Proof.
  destruct (sensor42_one_milli_apart
              (mkTime 1700000000 999500000) (mkTime 1700000001 500000))
    as (Hne & _ & Hafter).
  - vm_compute. reflexivity.
  - split; [exact Hne |]. apply Hafter. vm_compute. split; congruence.
Defined.

(** C9 as stated fails on the code: of the last millisecond before the
    epoch and the epoch itself, one millisecond later, the later one gets
    the key that sorts last. *)
Lemma sensor42_one_milli_apart_counterexample :
  valid_time last_milli_before_epoch /\ valid_time epoch /\
  since_epoch epoch - since_epoch last_milli_before_epoch = 1000000 /\
  BigTable.rowKey "sensor-42" last_milli_before_epoch = "sensor-42#0" /\
  BigTable.rowKey "sensor-42" epoch = "sensor-42#18446744073709551615" /\
  ~ sorts_before (BigTable.rowKey "sensor-42" epoch)
                 (BigTable.rowKey "sensor-42" last_milli_before_epoch).
Proof. repeat split; vm_compute; congruence. Qed.

(** ** Traces *)

Lemma no_calls_forallb {C O : Type} (tr : list (Event C O)) :
  forallb (fun e => negb (is_call e)) tr = true -> no_calls tr.
Proof.
  unfold no_calls. rewrite forallb_forall, Forall_forall.
  intros H e He. specialize (H e He). now destruct (is_call e).
Qed.

Lemma stops_at_failure_app {C O : Type} (a b : list (Event C O)) :
  existsb is_failed_call a = false ->
  stops_at_failure (a ++ b)%list = stops_at_failure b.
Proof.
  induction a as [| e a IH]; simpl; intros H; [reflexivity |].
  apply orb_false_elim in H as [He Ha]. rewrite He. auto.
Qed.

Lemma stops_at_failure_split {C O : Type} (pre : list (Event C O)) :
  forall tr c e post,
    stops_at_failure tr = true ->
    tr = (pre ++ Called c (Some e) :: post)%list ->
    no_calls post.
Proof.
  induction pre as [| x pre IH]; intros tr c e post Hs ->.
  - simpl in Hs. now apply no_calls_forallb.
  - cbn [app stops_at_failure] in Hs.
    destruct (is_failed_call x).
    + rewrite forallb_app in Hs. apply andb_prop in Hs as [_ Hs].
      simpl in Hs. discriminate.
    + eapply IH; [exact Hs | reflexivity].
Qed.

Lemma failed_call_in_trace {C O : Type} (pre post : list (Event C O)) c e :
  existsb is_failed_call (pre ++ Called c (Some e) :: post)%list = true.
Proof. rewrite existsb_app. simpl. apply orb_true_r. Qed.

(** ** Loops *)

Lemma for_each_emit {Ev A : Type} (f : A -> Ev) (l : list A) :
  for_each l (fun x => emit (f x)) = (map f l, Returns tt).
Proof.
  induction l as [| x l IH]; [reflexivity |].
  cbn [for_each map]. rewrite IH. reflexivity.
Qed.

Lemma for_each_families (r : BigTable.Row) :
  for_each r (fun '(fam, items) =>
    emit (Printed (BigTable.OutFamily fam)) ;;
    for_each items (fun it => emit (Printed (BigTable.OutItem it))))
  = (flat_map family_events r, Returns tt).
Proof.
  induction r as [| [fam items] r IH]; [reflexivity |].
  cbn [for_each flat_map]. rewrite IH, for_each_emit. reflexivity.
Qed.

Lemma iterate_eq (rows : list BigQuery.EventRow) (last : option error) :
  BigQuery.iterate rows last
  = ((flat_map row_events rows ++ [Called BigQuery.Next last])%list,
     Returns (match last with
              | None => None
              | Some e => Some (Sprintf "iterator.Next: %w" [ArgError e])
              end)).
Proof.
  induction rows as [| row rows IH].
  - destruct last; reflexivity.
  - cbn [BigQuery.iterate flat_map]. rewrite IH. reflexivity.
Qed.

Lemma make_savers_eq (rows : list BigQuery.EventRow) :
  BigQuery.make_savers rows
  = map (fun r => BigQuery.mkStructSaver r (BigQuery.EventID r)) rows.
Proof.
  unfold BigQuery.make_savers.
  enough (H : forall acc,
             fold_left (fun savers r =>
                          (savers ++ [BigQuery.mkStructSaver r (BigQuery.EventID r)])%list)
                       rows acc
             = (acc ++ map (fun r => BigQuery.mkStructSaver r (BigQuery.EventID r)) rows)%list)
    by apply (H []).
  induction rows as [| r rows IH]; intros acc; simpl.
  - now rewrite app_nil_r.
  - rewrite IH, <- app_assoc. reflexivity.
Qed.

Lemma quiet_no_failure {C O : Type} (tr : list (Event C O)) :
  quiet tr = true -> existsb is_failed_call tr = false.
Proof.
  induction tr as [| e tr IH]; [reflexivity |].
  cbn [quiet forallb existsb]. intros H. apply andb_prop in H as [He Htr].
  rewrite (IH Htr). destruct e as [c [err |] | | |]; try reflexivity.
  discriminate He.
Qed.

Lemma stops_at_failure_quiet {C O : Type} (a b : list (Event C O)) :
  quiet a = true -> stops_at_failure (a ++ b)%list = stops_at_failure b.
Proof. intros H. apply stops_at_failure_app, quiet_no_failure, H. Qed.

Lemma quiet_family_events (r : BigTable.Row) :
  quiet (flat_map family_events r) = true.
Proof.
  unfold quiet. induction r as [| [fam items] r IH]; [reflexivity |].
  cbn [flat_map]. rewrite forallb_app, IH, andb_true_r.
  unfold family_events. cbn [fst snd forallb is_call negb andb].
  clear IH. induction items as [| it items IHi]; simpl; auto.
Qed.

Lemma quiet_printed_rows (keys : list string) :
  quiet (C := BigTable.Call)
        (map (fun key => Printed (BigTable.OutRow key)) keys) = true.
Proof. induction keys as [| k keys IH]; simpl; auto. Qed.

Lemma row_events_no_failure (rows : list BigQuery.EventRow) :
  existsb is_failed_call (flat_map row_events rows) = false.
Proof. induction rows as [| r rows IH]; simpl; auto. Qed.

(** ** The functions of the wide-column example, case by case *)

Lemma loadConfig_eq (w : BigTable.World) :
  BigTable.loadConfig w
  = match BigTable.dotenv_load w with
    | Some err => ([Logged (Sprintf "Error loading .env file: %v" [ArgError err])], Exits 1)
    | None => ([], Returns (BigTable.mkConfig
                              (BigTable.getenv w "PROJECT_ID")
                              (BigTable.getenv w "INSTANCE_ID")
                              (BigTable.getenv w "TABLE_ID")
                              (BigTable.getenv w "COLUMN_FAMILY")))
    end.
Proof. unfold BigTable.loadConfig. destruct (BigTable.dotenv_load w); reflexivity. Qed.

Lemma readRow_eq (w : BigTable.World) (tbl key : string) :
  BigTable.readRow w tbl key
  = match BigTable.read_row_err w with
    | Some e => ([Called (BigTable.ReadRow tbl key) (Some e);
                  Logged (Sprintf "Failed to read row: %v" [ArgError e])], Exits 1)
    | None => (Called (BigTable.ReadRow tbl key) None
               :: Printed (BigTable.OutReading key)
               :: flat_map family_events (BigTable.read_row w), Returns tt)
    end.
Proof.
  unfold BigTable.readRow. rewrite for_each_families.
  destruct (BigTable.read_row_err w); reflexivity.
Qed.

Lemma scanRows_eq (w : BigTable.World) (tbl prefix : string) :
  BigTable.scanRows w tbl prefix
  = (Printed (BigTable.OutScanning prefix)
     :: Called (BigTable.ReadRows tbl prefix 1) (BigTable.scan_err w)
     :: map (fun key => Printed (BigTable.OutRow key)) (BigTable.scan_rows w)
     ++ match BigTable.scan_err w with
        | Some e => [Logged (Sprintf "Failed to scan rows: %v" [ArgError e])]
        | None => []
        end,
     match BigTable.scan_err w with
     | Some _ => Exits 1
     | None => Returns tt
     end)%list.
Proof.
  unfold BigTable.scanRows. rewrite for_each_emit.
  destruct (BigTable.scan_err w); reflexivity.
Qed.

(** One step of a run: the monad operations are unfolded. *)
Ltac run_bt :=
  cbn [bind call emit ret Fatalf Fatal trace exit_status fst snd app
       BigTable.TableID BigTable.ProjectID BigTable.InstanceID BigTable.ColumnFamily].

(** Evaluates [stops_at_failure], [existsb] and [forallb] over a trace made
    of explicit events and of loop segments known from the context. *)
Ltac check_trace :=
  repeat (cbn [stops_at_failure is_failed_call is_call existsb forallb negb orb andb app]
          || (rewrite app_nil_r)
          || (rewrite <- app_assoc)
          || (rewrite forallb_app)
          || (rewrite existsb_app)
          || (rewrite stops_at_failure_quiet by assumption)
          || (rewrite stops_at_failure_app by assumption)
          || match goal with
             | H : _ = _ |- _ => rewrite H
             end).

Ltac fail_stop_done :=
  run_bt; check_trace; split; [reflexivity | first [intros _; reflexivity | discriminate]].

Lemma bt_main_fail_stop (w : BigTable.World) :
  stops_at_failure (trace (BigTable.main w)) = true /\
  (existsb is_failed_call (trace (BigTable.main w)) = true ->
   exit_status (BigTable.main w) = 1).
Proof.
  pose proof (quiet_family_events (BigTable.read_row w)) as Qf.
  pose proof (quiet_printed_rows (BigTable.scan_rows w)) as Qr.
  pose proof (quiet_no_failure _ Qf) as Nf.
  pose proof (quiet_no_failure _ Qr) as Nr.
  pose proof Qf as Qf'. pose proof Qr as Qr'. unfold quiet in Qf', Qr'.
  unfold BigTable.main. rewrite loadConfig_eq.
  destruct (BigTable.dotenv_load w); [fail_stop_done |].
  unfold BigTable.createBigtableClient, BigTable.writeRow.
  destruct (BigTable.new_client w); [fail_stop_done |].
  destruct (BigTable.apply w); [fail_stop_done |].
  run_bt. rewrite readRow_eq.
  destruct (BigTable.read_row_err w); [fail_stop_done |].
  run_bt. rewrite scanRows_eq.
  destruct (BigTable.scan_err w); fail_stop_done.
Qed.

(** ** The functions of the warehouse example, case by case *)

Lemma insertEvents_eq (w : BigQuery.World) (datasetID tableID : string)
      (rows : list BigQuery.EventRow) :
  BigQuery.insertEvents w datasetID tableID rows
  = ([Printed BigQuery.OutStreaming;
      Called (BigQuery.Put datasetID tableID (BigQuery.make_savers rows)) (BigQuery.put w)],
     Returns (match BigQuery.put w with
              | Some e => Some (Sprintf "inserter.Put: %w" [ArgError e])
              | None => None
              end)).
Proof. unfold BigQuery.insertEvents. destruct (BigQuery.put w); reflexivity. Qed.

Lemma queryEventsTable_eq (w : BigQuery.World) (p d t : string) :
  BigQuery.queryEventsTable w p d t
  = match BigQuery.new_client_query w with
    | Some e =>
        ([Called (BigQuery.NewClient p) (Some e)],
         Returns (Some (Sprintf "bigquery.NewClient: %w" [ArgError e])))
    | None =>
        match BigQuery.read w with
        | Some e =>
            ([Called (BigQuery.NewClient p) None;
              Called (BigQuery.Read (BigQuery.queryStr p d t)) (Some e);
              Closed],
             Returns (Some (Sprintf "query.Read: %w" [ArgError e])))
        | None =>
            (Called (BigQuery.NewClient p) None
             :: Called (BigQuery.Read (BigQuery.queryStr p d t)) None
             :: Printed (BigQuery.OutHeader (BigQuery.tableRef p d t))
             :: flat_map row_events (BigQuery.rows w)
             ++ [Called BigQuery.Next (BigQuery.iter_end w); Closed],
             Returns (match BigQuery.iter_end w with
                      | None => None
                      | Some e => Some (Sprintf "iterator.Next: %w" [ArgError e])
                      end))
        end
    end%list.
Proof.
  unfold BigQuery.queryEventsTable.
  destruct (BigQuery.new_client_query w); [reflexivity |].
  destruct (BigQuery.read w); [reflexivity |].
  cbn [bind call emit ret app]. rewrite iterate_eq.
  cbn [bind call emit ret app]. rewrite <- app_assoc. reflexivity.
Qed.

(** The same steps for the warehouse example. *)
Ltac run_bq :=
  cbn [bind call emit ret Fatalf Fatal trace exit_status fst snd app].

Ltac fail_stop_bq :=
  run_bq; check_trace; split; [reflexivity | first [intros _; reflexivity | discriminate]].

Lemma bq_main_fail_stop (w : BigQuery.World) :
  stops_at_failure (trace (BigQuery.main w)) = true /\
  (existsb is_failed_call (trace (BigQuery.main w)) = true ->
   exit_status (BigQuery.main w) = 1).
Proof.
  pose proof (row_events_no_failure (BigQuery.rows w)) as Nr.
  unfold BigQuery.main.
  set (pre := match BigQuery.dotenv_load w with
              | Some _ => emit (Logged "Warning: Could not load .env file.")
              | None => ret tt
              end).
  assert (Hpre : exists tr, pre = (tr, Returns tt) /\ quiet tr = true).
  { subst pre. destruct (BigQuery.dotenv_load w); eexists; split; reflexivity. }
  destruct Hpre as (tr0 & -> & Q0).
  pose proof (quiet_no_failure _ Q0) as N0.
  destruct (_ || _ || _)%bool; [fail_stop_bq |].
  destruct (_ =? "your-gcp-project-id")%string; [fail_stop_bq |].
  destruct (BigQuery.new_client_main w); [fail_stop_bq |].
  destruct (_ =? "1")%string.
  - run_bq. rewrite insertEvents_eq.
    destruct (BigQuery.put w); [fail_stop_bq |].
    run_bq. rewrite queryEventsTable_eq.
    destruct (BigQuery.new_client_query w); [fail_stop_bq |].
    destruct (BigQuery.read w); [fail_stop_bq |].
    destruct (BigQuery.iter_end w); fail_stop_bq.
  - run_bq. rewrite queryEventsTable_eq.
    destruct (BigQuery.new_client_query w); [fail_stop_bq |].
    destruct (BigQuery.read w); [fail_stop_bq |].
    destruct (BigQuery.iter_end w); fail_stop_bq.
Qed.

Lemma result_lines_rows (rows : list BigQuery.EventRow) :
  List.length (filter is_result_line (flat_map row_events rows)) = List.length rows.
Proof. induction rows as [| r rows IH]; simpl; auto. Qed.

(** Counts the result lines of a trace. *)
Ltac count_lines :=
  unfold result_lines;
  repeat (cbn [filter is_result_line List.length app trace fst]
          || (rewrite filter_app)
          || (rewrite List.length_app)
          || (rewrite result_lines_rows));
  lia.

Lemma bq_main_result_lines (w : BigQuery.World) :
  (result_lines (trace (BigQuery.main w)) <= List.length (BigQuery.rows w))%nat.
Proof.
  unfold BigQuery.main.
  destruct (BigQuery.dotenv_load w);
    (destruct (_ || _ || _)%bool; [run_bq; count_lines |]);
    (destruct (_ =? "your-gcp-project-id")%string; [run_bq; count_lines |]);
    (destruct (BigQuery.new_client_main w); [run_bq; count_lines |]);
    (destruct (_ =? "1")%string;
     [ run_bq; rewrite insertEvents_eq;
       (destruct (BigQuery.put w); [run_bq; count_lines |])
     | ]);
    run_bq; rewrite queryEventsTable_eq;
    (destruct (BigQuery.new_client_query w); [run_bq; count_lines |]);
    (destruct (BigQuery.read w); [run_bq; count_lines |]);
    destruct (BigQuery.iter_end w); run_bq; count_lines.
Qed.

Lemma read_not_in_rows (rows : list BigQuery.EventRow) q err :
  ~ In (Called (BigQuery.Read q) err) (flat_map row_events rows).
Proof.
  induction rows as [| r rows IH]; simpl; [tauto |].
  intros [H | [H | H]]; [discriminate | discriminate | auto].
Qed.

(** Looks for the queries sent in a trace. *)
Ltac find_query :=
  run_bq;
  let Hin := fresh "Hin" in
  intros Hin;
  repeat ((rewrite in_app_iff in Hin) || (progress cbn [In] in Hin));
  intuition (try discriminate; try congruence).

Lemma bq_main_queries (w : BigQuery.World) q err :
  In (Called (BigQuery.Read q) err) (trace (BigQuery.main w)) ->
  q = BigQuery.queryStr (BigQuery.getenv w "PROJECT_ID")
                        (BigQuery.getenv w "BIG_QUERY_DATASET_ID")
                        (BigQuery.getenv w "BIG_QUERY_TABLE_ID").
Proof.
  pose proof (read_not_in_rows (BigQuery.rows w) q err) as Hrows.
  unfold BigQuery.main.
  destruct (BigQuery.dotenv_load w);
    (destruct (_ || _ || _)%bool; [find_query |]);
    (destruct (_ =? "your-gcp-project-id")%string; [find_query |]);
    (destruct (BigQuery.new_client_main w); [find_query |]);
    (destruct (_ =? "1")%string;
     [ run_bq; rewrite insertEvents_eq;
       (destruct (BigQuery.put w); [find_query |])
     | ]);
    run_bq; rewrite queryEventsTable_eq;
    (destruct (BigQuery.new_client_query w); [find_query |]);
    (destruct (BigQuery.read w); [find_query |]);
    destruct (BigQuery.iter_end w); find_query.
Qed.

(** *** C10 *)

(** C10. For every project, dataset and table identifier the query string
    is the fixed statement selecting event_id, device_id, timestamp and
    temperature from the backticked project.dataset.table reference,
    ordered by timestamp descending, with LIMIT 10; a run prints one line
    per row the service returns for it, hence at most 10 lines when the
    service honours the limit.  Every query a run sends is this statement
    for the identifiers of the environment. *)
Theorem query_statement_limit_10 (w : BigQuery.World) (p d t : string) :
  BigQuery.queryStr p d t
  = String "010" (String "009" (String "009"
      ("SELECT event_id, device_id, timestamp, temperature" ++
       String "010" (String "009" (String "009"
      ("FROM `" ++ p ++ "." ++ d ++ "." ++ t ++ "`" ++
       String "010" (String "009" (String "009"
      ("ORDER BY timestamp DESC" ++
       String "010" (String "009" (String "009"
       "LIMIT 10"))))))))))) /\
  (forall q err,
      In (Called (BigQuery.Read q) err) (trace (BigQuery.main w)) ->
      q = BigQuery.queryStr (BigQuery.getenv w "PROJECT_ID")
                            (BigQuery.getenv w "BIG_QUERY_DATASET_ID")
                            (BigQuery.getenv w "BIG_QUERY_TABLE_ID")) /\
  ((List.length (BigQuery.rows w) <= 10)%nat ->
   (result_lines (trace (BigQuery.main w)) <= 10)%nat).
Proof.
  split; [| split].
  - unfold BigQuery.queryStr, BigQuery.tableRef, BigQuery.query_format, BigQuery.nl_tabs.
    cbn [append]. cbn [Sprintf Ascii.eqb Bool.eqb is_verb orb formatArg append].
    repeat ((rewrite append_assoc) || (progress cbn [append])). reflexivity.
  - intros q err. apply bq_main_queries.
  - intros H. pose proof (bq_main_result_lines w). lia.
Qed.

Lemma bind_emit {Ev A : Type} (e : Ev) (k : unit -> Prog Ev A) :
  bind (emit e) k = (e :: fst (k tt), snd (k tt)).
Proof. unfold bind, emit. destruct (k tt); reflexivity. Qed.

Lemma bind_ret {Ev A B : Type} (a : A) (k : A -> Prog Ev B) :
  bind (ret a) k = k a.
Proof. unfold bind, ret. destruct (k a); reflexivity. Qed.

Lemma trace_bind_cons {Ev A B : Type} (m : Prog Ev A) (k : A -> Prog Ev B) e tr o :
  m = (e :: tr, o) -> exists rest, trace (bind m k) = e :: rest.
Proof.
  intros ->. unfold bind. destruct o as [a |]; [| eexists; reflexivity].
  destruct (k a). eexists. reflexivity.
Qed.

Lemma query_statement_limit_10_witness :
  (result_lines (trace (BigQuery.main bq_world_ok)) <= 10)%nat.
Proof.
  destruct (query_statement_limit_10 bq_world_ok "demo-project" "telemetry" "events")
    as (_ & _ & Hlimit).
  apply Hlimit. simpl. lia.
Defined.

(** *** C6 *)

(** C6. For every list of event rows, [insertEvents] makes one insertion
    call, with one saver per row, in order, whose record is the row and
    whose InsertID is the EventID of that row. *)
Theorem insertEvents_dedup_token (w : BigQuery.World) (datasetID tableID : string)
        (rows : list BigQuery.EventRow) :
  exists savers,
    trace (BigQuery.insertEvents w datasetID tableID rows)
    = [Printed BigQuery.OutStreaming;
       Called (BigQuery.Put datasetID tableID savers) (BigQuery.put w)] /\
    Forall2 (fun r s => BigQuery.Struct s = r /\ BigQuery.InsertID s = BigQuery.EventID r)
            rows savers.
Proof.
  exists (BigQuery.make_savers rows). split.
  - rewrite insertEvents_eq. reflexivity.
  - rewrite make_savers_eq. induction rows as [| r rows IH]; constructor; auto.
Qed.

(** *** C4 *)

(** C4, as the code has it. The warehouse example ends with status 1 and
    without any external call when PROJECT_ID, BIG_QUERY_DATASET_ID or
    BIG_QUERY_TABLE_ID is empty.  The wide-column example does not look at
    the values it reads: it ends before any external call only when the
    [.env] file does not load, and otherwise starts with the construction
    of the client from whatever PROJECT_ID and INSTANCE_ID hold. *)
Theorem missing_config_policy :
  (forall w : BigQuery.World,
      BigQuery.getenv w "PROJECT_ID" = "" \/
      BigQuery.getenv w "BIG_QUERY_DATASET_ID" = "" \/
      BigQuery.getenv w "BIG_QUERY_TABLE_ID" = "" ->
      exit_status (BigQuery.main w) = 1 /\ no_calls (trace (BigQuery.main w))) /\
  (forall (w : BigTable.World) (e : error),
      BigTable.dotenv_load w = Some e ->
      exit_status (BigTable.main w) = 1 /\ no_calls (trace (BigTable.main w))) /\
  (forall w : BigTable.World,
      BigTable.dotenv_load w = None ->
      exists rest,
        trace (BigTable.main w)
        = Called (BigTable.NewClient (BigTable.getenv w "PROJECT_ID")
                                     (BigTable.getenv w "INSTANCE_ID"))
                 (BigTable.new_client w) :: rest).
Proof.
  split; [| split].
  - intros w H.
    assert (Hc : ((BigQuery.getenv w "PROJECT_ID" =? "")
                  || (BigQuery.getenv w "BIG_QUERY_DATASET_ID" =? "")
                  || (BigQuery.getenv w "BIG_QUERY_TABLE_ID" =? ""))%string = true).
    { destruct H as [H | [H | H]]; rewrite H; cbn [String.eqb];
        rewrite ?orb_true_r; reflexivity. }
    unfold BigQuery.main. rewrite Hc.
    destruct (BigQuery.dotenv_load w); run_bq;
      (split; [reflexivity | apply no_calls_forallb; reflexivity]).
  - intros w e H. unfold BigTable.main. rewrite loadConfig_eq, H. run_bt.
    split; [reflexivity | apply no_calls_forallb; reflexivity].
  - intros w H. unfold BigTable.main. rewrite loadConfig_eq, H.
    change (@nil BigTable.Ev, Returns ?c) with (@ret BigTable.Ev _ c).
    rewrite bind_ret.
    unfold BigTable.createBigtableClient.
    cbn [BigTable.ProjectID BigTable.InstanceID].
    destruct (BigTable.new_client w); eapply trace_bind_cons; reflexivity.
Qed.

(** The placeholder project identifier of the sample [.env] file is
    refused in the same way. *)
Lemma placeholder_project_is_fatal (w : BigQuery.World) :
  BigQuery.getenv w "PROJECT_ID" = "your-gcp-project-id" ->
  exit_status (BigQuery.main w) = 1 /\ no_calls (trace (BigQuery.main w)).
Proof.
  intros H. unfold BigQuery.main. rewrite H.
  destruct (BigQuery.dotenv_load w);
    (destruct (_ || _ || _)%bool; run_bq;
     (split; [reflexivity | apply no_calls_forallb; reflexivity])).
Qed.

Lemma missing_config_policy_witness :
  (exit_status (BigQuery.main bq_world_no_config) = 1 /\
   no_calls (trace (BigQuery.main bq_world_no_config))) /\
  (exit_status (BigTable.main bt_world_no_dotenv) = 1 /\
   no_calls (trace (BigTable.main bt_world_no_dotenv))) /\
  (exists rest,
      trace (BigTable.main bt_world_no_config)
      = Called (BigTable.NewClient "" "") None :: rest).
Proof.
  destruct missing_config_policy as (Hq & Ht & Hn).
  split; [| split].
  - apply (Hq bq_world_no_config). left. reflexivity.
  - apply (Ht bt_world_no_dotenv "open .env: no such file or directory"). reflexivity.
  - apply (Hn bt_world_no_config). reflexivity.
Defined.

(** C4 as stated fails on the wide-column example: with a [.env] file that
    loads and none of the four variables set, the client is constructed,
    the row is written, read and scanned, and the run ends with status 0. *)
Lemma missing_config_counterexample :
  BigTable.dotenv_load bt_world_no_config = None /\
  BigTable.getenv bt_world_no_config "PROJECT_ID" = "" /\
  BigTable.getenv bt_world_no_config "INSTANCE_ID" = "" /\
  BigTable.getenv bt_world_no_config "TABLE_ID" = "" /\
  BigTable.getenv bt_world_no_config "COLUMN_FAMILY" = "" /\
  filter is_call (trace (BigTable.main bt_world_no_config))
  = [ Called (BigTable.NewClient "" "") None;
      Called (BigTable.Apply "" "sensor-42#18446742373709551615"
                [ BigTable.mkSetCell "" "temp_c" 1 "27.4";
                  BigTable.mkSetCell "" "hum_pct" 2 "61" ]) None;
      Called (BigTable.ReadRow "" "sensor-42#18446742373709551615") None;
      Called (BigTable.ReadRows "" "sensor-42#" 1) None ] /\
  exit_status (BigTable.main bt_world_no_config) = 0 /\
  ~ no_calls (trace (BigTable.main bt_world_no_config)).
Proof.
  repeat split; try reflexivity.
  intros H. inversion H as [| x l Hx Hl]. discriminate Hx.
Qed.

(** *** C5 *)

(** C5. In either program, when a call to the service fails (client
    construction, insert, query, fetch of a result row, write, read or
    scan), the run ends with status 1 and no call to the service follows
    the failed one.  (The connection of [queryEventsTable] is still closed
    on its way out; closing is not one of these calls.) *)
Theorem failed_call_aborts_run :
  (forall (w : BigQuery.World) pre c e post,
      trace (BigQuery.main w) = (pre ++ Called c (Some e) :: post)%list ->
      exit_status (BigQuery.main w) = 1 /\ no_calls post) /\
  (forall (w : BigTable.World) pre c e post,
      trace (BigTable.main w) = (pre ++ Called c (Some e) :: post)%list ->
      exit_status (BigTable.main w) = 1 /\ no_calls post).
Proof.
  split; intros w pre c e post H.
  - destruct (bq_main_fail_stop w) as [Hs Hx]. split.
    + apply Hx. rewrite H. apply failed_call_in_trace.
    + exact (stops_at_failure_split pre _ c e post Hs H).
  - destruct (bt_main_fail_stop w) as [Hs Hx]. split.
    + apply Hx. rewrite H. apply failed_call_in_trace.
    + exact (stops_at_failure_split pre _ c e post Hs H).
Qed.

Lemma failed_call_aborts_run_witness :
  (exit_status (BigQuery.main bq_world_put_fails) = 1 /\
   no_calls [Logged "insertEvents failed: inserter.Put: deadline exceeded"
             : BigQuery.Ev]) /\
  (exit_status (BigTable.main bt_world_apply_fails) = 1 /\
   no_calls [Logged "Failed to write row: deadline exceeded" : BigTable.Ev]).
Proof.
  destruct failed_call_aborts_run as (Hq & Ht). split.
  - eapply (Hq bq_world_put_fails
              (firstn 2 (trace (BigQuery.main bq_world_put_fails)))).
    vm_compute. reflexivity.
  - eapply (Ht bt_world_apply_fails
              (firstn 1 (trace (BigTable.main bt_world_apply_fails)))).
    vm_compute. reflexivity.
Defined.

(** *** C7 *)

(** C7. When the [.env] file cannot be loaded, the warehouse example
    prints a warning and goes on exactly as it would after a successful
    load, while the wide-column example logs the error and ends with
    status 1. *)
Theorem dotenv_failure_policy :
  (forall (w : BigQuery.World) (e : error),
      BigQuery.dotenv_load w = Some e ->
      trace (BigQuery.main w)
      = Logged "Warning: Could not load .env file."
        :: trace (BigQuery.main (with_dotenv_loaded w)) /\
      snd (BigQuery.main w) = snd (BigQuery.main (with_dotenv_loaded w))) /\
  (forall (w : BigTable.World) (e : error),
      BigTable.dotenv_load w = Some e ->
      BigTable.main w
      = ([Logged (Sprintf "Error loading .env file: %v" [ArgError e])], Exits 1)).
Proof.
  split; intros w e H.
  - unfold BigQuery.main.
    cbn [with_dotenv_loaded BigQuery.dotenv_load BigQuery.getenv BigQuery.time_now
         BigQuery.new_client_main].
    rewrite H, bind_emit, bind_ret. split; reflexivity.
  - unfold BigTable.main. rewrite loadConfig_eq, H. reflexivity.
Qed.

Lemma dotenv_failure_policy_witness :
  (trace (BigQuery.main bq_world_no_dotenv)
   = Logged "Warning: Could not load .env file."
     :: trace (BigQuery.main (with_dotenv_loaded bq_world_no_dotenv)) /\
   snd (BigQuery.main bq_world_no_dotenv)
   = snd (BigQuery.main (with_dotenv_loaded bq_world_no_dotenv))) /\
  BigTable.main bt_world_no_dotenv
  = ([Logged "Error loading .env file: open .env: no such file or directory"], Exits 1).
Proof.
  destruct dotenv_failure_policy as (Hq & Ht). split.
  - apply (Hq bq_world_no_dotenv "open .env: no such file or directory"). reflexivity.
  - apply (Ht bt_world_no_dotenv "open .env: no such file or directory"). reflexivity.
Defined.

(** ** Sample runs *)

Example rowKey_epoch :
  BigTable.rowKey "sensor-42" epoch = "sensor-42#18446744073709551615".
Proof. reflexivity. Qed.

Example rowKey_2023 :
  BigTable.rowKey "sensor-42" (mkTime 1700000000 123456789)
  = "sensor-42#18446742373709551492".
Proof. reflexivity. Qed.

Example rowKey_before_epoch :
  BigTable.rowKey "d" (mkTime (-1) 989000000) = "d#10".
Proof. reflexivity. Qed.

Example bq_run_ok :
  exit_status (BigQuery.main bq_world_ok) = 0 /\
  result_lines (trace (BigQuery.main bq_world_ok)) = 2%nat /\
  filter is_call (trace (BigQuery.main bq_world_ok))
  = [ Called (BigQuery.NewClient "demo-project") None;
      Called (BigQuery.Put "telemetry" "events"
                [ BigQuery.mkStructSaver
                    (BigQuery.mkEventRow "evt-1700000000000000000" "device-123"
                       (mkTime 1700000000 0)
                       (BigQuery.mkNullFloat64 4628391558295165338 true))
                    "evt-1700000000000000000" ]) None;
      Called (BigQuery.NewClient "demo-project") None;
      Called (BigQuery.Read
                (BigQuery.queryStr "demo-project" "telemetry" "events")) None;
      Called BigQuery.Next None;
      Called BigQuery.Next None;
      Called BigQuery.Next None ].
Proof. repeat split. Qed.

Example bq_run_put_fails :
  BigQuery.main bq_world_put_fails
  = ([ Called (BigQuery.NewClient "demo-project") None;
       Printed BigQuery.OutStreaming;
       Called (BigQuery.Put "telemetry" "events"
                 [ BigQuery.mkStructSaver
                     (BigQuery.mkEventRow "evt-1700000000000000000" "device-123"
                        (mkTime 1700000000 0)
                        (BigQuery.mkNullFloat64 4628391558295165338 true))
                     "evt-1700000000000000000" ]) (Some "deadline exceeded");
       Logged "insertEvents failed: inserter.Put: deadline exceeded" ],
     Exits 1).
Proof. reflexivity. Qed.

Example bt_run_apply_fails :
  BigTable.main bt_world_apply_fails
  = ([ Called (BigTable.NewClient "" "") None;
       Called (BigTable.Apply "" "sensor-42#18446742373709551615"
                 [ BigTable.mkSetCell "" "temp_c" 1 "27.4";
                   BigTable.mkSetCell "" "hum_pct" 2 "61" ])
              (Some "deadline exceeded");
       Logged "Failed to write row: deadline exceeded" ],
     Exits 1).
Proof. reflexivity. Qed.

(** * Further properties of the code *)

(** ** More on the row key *)

Lemma hash_not_in_numeral (a b : string) : all_digits (a ++ String "#" b) = false.
Proof.
  rewrite all_digits_append. cbn [all_digits].
  replace (is_digit "#") with false by reflexivity.
  cbn [andb]. apply andb_false_r.
Qed.

(** A key splits in one way only into an identifier, ["#"] and a numeral:
    at its last ["#"]. *)
Lemma split_at_last_hash (a : string) :
  forall (b n1 n2 : string),
    all_digits n1 = true -> all_digits n2 = true ->
    a ++ "#" ++ n1 = b ++ "#" ++ n2 -> a = b /\ n1 = n2.
Proof.
  induction a as [| x a IH]; intros [| y b] n1 n2 H1 H2 E; cbn [append] in E.
  - injection E as E. auto.
  - injection E as _ E. rewrite E, hash_not_in_numeral in H1. discriminate.
  - injection E as _ E. rewrite <- E, hash_not_in_numeral in H2. discriminate.
  - injection E as -> E. destruct (IH b n1 n2 H1 H2 E) as [-> ->]. auto.
Qed.

Lemma int64_uint64 (m : Z) : - 2 ^ 63 <= m < 2 ^ 63 -> int64 (uint64 m) = m.
Proof.
  intros R. rewrite uint64_signed by assumption. unfold int64.
  destruct (Z.ltb_spec m 0).
  - replace ((m + 2 ^ 64 + 2 ^ 63) mod 2 ^ 64) with (m + 2 ^ 63); [lia |].
    apply Z.mod_unique with (q := 1); lia.
  - rewrite Z.mod_small; lia.
Qed.

Lemma UnixMilli_of_reversed (t1 t2 : Time) :
  compl64 (uint64 (UnixMilli t1)) = compl64 (uint64 (UnixMilli t2)) ->
  UnixMilli t1 = UnixMilli t2.
Proof.
  rewrite !compl64_sub by apply uint64_range. intros H.
  rewrite <- (int64_uint64 _ (UnixMilli_range t1)).
  rewrite <- (int64_uint64 _ (UnixMilli_range t2)).
  f_equal. lia.
Qed.

(** X1. Two row keys are equal exactly when the device identifiers are
    equal and the timestamps fall in the same millisecond; in particular a
    ["#"] inside a device identifier cannot make two keys collide. *)
Theorem rowKey_eq_iff (d1 d2 : string) (t1 t2 : Time) :
  BigTable.rowKey d1 t1 = BigTable.rowKey d2 t2
  <-> d1 = d2 /\ UnixMilli t1 = UnixMilli t2.
Proof.
  split.
  - intros E.
    destruct (rowKey_numeral d1 t1) as (n1 & E1 & Hd1 & Hv1 & _).
    destruct (rowKey_numeral d2 t2) as (n2 & E2 & Hd2 & Hv2 & _).
    rewrite E1, E2 in E.
    destruct (split_at_last_hash d1 d2 n1 n2 Hd1 Hd2 E) as [Hd Hn].
    split; [exact Hd |].
    apply UnixMilli_of_reversed. rewrite <- Hv1, <- Hv2, Hn. reflexivity.
  - intros [Hd Hm]. unfold BigTable.rowKey. rewrite Hd, Hm. reflexivity.
Qed.

Lemma rowKey_eq_iff_witness :
  BigTable.rowKey "a#b" (mkTime 1700000000 100) = BigTable.rowKey "a#b" (mkTime 1700000000 999999)
  /\ UnixMilli (mkTime 1700000000 5000000) = UnixMilli (mkTime 1700000000 5999999).
Proof.
  split.
  - apply (proj2 (rowKey_eq_iff "a#b" "a#b" (mkTime 1700000000 100)
                    (mkTime 1700000000 999999))).
    split; reflexivity.
  - apply (proj1 (rowKey_eq_iff "s" "s" (mkTime 1700000000 5000000)
                    (mkTime 1700000000 5999999))).
    reflexivity.
Defined.

(** X2. The millisecond value of the timestamp is recovered from a row
    key by complementing the number after the ["#"] again and reading the
    64-bit word as a signed integer. *)
Theorem rowKey_decode (deviceID : string) (t : Time) :
  exists numeral,
    BigTable.rowKey deviceID t = deviceID ++ "#" ++ numeral /\
    all_digits numeral = true /\
    int64 (compl64 (numeral_value numeral)) = UnixMilli t.
Proof.
  destruct (rowKey_numeral deviceID t) as (n & E & Hd & Hv & _).
  exists n. split; [exact E |]. split; [exact Hd |].
  rewrite Hv.
  rewrite (compl64_sub (compl64 _)) by apply reversed_range.
  rewrite compl64_sub by apply uint64_range.
  replace (2 ^ 64 - 1 - (2 ^ 64 - 1 - uint64 (UnixMilli t)))
    with (uint64 (UnixMilli t)) by lia.
  apply int64_uint64, UnixMilli_range.
Qed.

(** X3. The numeral of a row key has between 1 and 20 digits: at most 19
    for a timestamp before the epoch, and exactly 20 from the epoch up to
    millisecond 8446744073709551615, so that the keys of one device then
    all have the same length. *)
Theorem rowKey_length (deviceID : string) (t : Time) :
  (String.length deviceID + 2 <= String.length (BigTable.rowKey deviceID t)
   <= String.length deviceID + 21)%nat /\
  (UnixMilli t < 0 ->
   (String.length (BigTable.rowKey deviceID t) <= String.length deviceID + 20)%nat) /\
  (0 <= UnixMilli t <= 8446744073709551615 ->
   String.length (BigTable.rowKey deviceID t) = (String.length deviceID + 21)%nat).
Proof.
  destruct (rowKey_numeral deviceID t) as (n & E & Hp).
  pose proof (reversed_range t) as R.
  pose proof (UnixMilli_range t) as Rm.
  assert (Hlen : String.length (BigTable.rowKey deviceID t)
                 = (String.length deviceID + 1 + String.length n)%nat).
  { rewrite E, !length_append. cbn [String.length]. lia. }
  assert (Hw : forall b, 0 <= b -> compl64 (uint64 (UnixMilli t)) < 10 ^ b ->
                         Z.of_nat (String.length n) <= Z.max 1 b).
  { intros b Hb Hlt.
    destruct (Z.eq_dec (compl64 (uint64 (UnixMilli t))) 0) as [Hz | Hnz].
    - destruct Hp as (_ & _ & c & s' & _ & _ & Hzero).
      rewrite (Hzero Hz). simpl. lia.
    - apply prints_as_width in Hp; [| lia].
      assert (Z.of_nat (String.length n) - 1 < b).
      { apply (Z.pow_lt_mono_r_iff 10); lia. }
      lia. }
  assert (Hpos : (1 <= String.length n)%nat).
  { destruct Hp as (_ & _ & c & s' & -> & _). simpl. lia. }
  split; [| split].
  - specialize (Hw 20 ltac:(lia)).
    change (10 ^ 20) with 100000000000000000000 in Hw.
    change (2 ^ 64) with 18446744073709551616 in R. lia.
  - intros Hneg. specialize (Hw 19 ltac:(lia)).
    change (10 ^ 19) with 10000000000000000000 in Hw.
    rewrite reversed_value in Hw.
    pose proof (uint64_signed _ Rm) as Hu. unfold uint64 in Hu.
    destruct (Z.ltb_spec (UnixMilli t) 0); [| lia].
    change (2 ^ 63) with 9223372036854775808 in Rm.
    change (2 ^ 64) with 18446744073709551616 in *. lia.
  - apply rowKey_width_after_epoch.
Qed.

Lemma rowKey_length_witness :
  (String.length (BigTable.rowKey "sensor-42" last_milli_before_epoch) <= 9 + 20)%nat /\
  String.length (BigTable.rowKey "sensor-42" epoch) = (9 + 21)%nat.
Proof.
  split.
  - apply (proj1 (proj2 (rowKey_length "sensor-42" last_milli_before_epoch))).
    vm_compute. reflexivity.
  - apply (proj2 (proj2 (rowKey_length "sensor-42" epoch))).
    vm_compute. split; congruence.
Defined.

Lemma string_compare_refl (s : string) : String.compare s s = Eq.
Proof.
  induction s as [| c s IH]; [reflexivity |].
  cbn [String.compare]. now rewrite ascii_compare_refl.
Qed.

(** For valid timestamps the order of the instants is the order of the
    millisecond values, as long as these fit in 64 bits. *)
Lemma UnixMilli_monotone (t1 t2 : Time) :
  valid_time t1 -> valid_time t2 ->
  0 <= unixSec t1 -> unixSec t2 < 8446744073709551 ->
  Before t1 t2 ->
  0 <= UnixMilli t1 <= UnixMilli t2 /\ UnixMilli t2 <= 8446744073709551615.
Proof.
  intros [_ N1] [_ N2] H0 Hmax Hb.
  assert (D1 : 0 <= nsec t1 / 1000000 <= 999).
  { split; [apply Z.div_pos; lia |].
    apply Z.lt_succ_r, Z.div_lt_upper_bound; lia. }
  assert (D2 : 0 <= nsec t2 / 1000000 <= 999).
  { split; [apply Z.div_pos; lia |].
    apply Z.lt_succ_r, Z.div_lt_upper_bound; lia. }
  assert (Hle : unixSec t1 * 1000 + nsec t1 / 1000000
                <= unixSec t2 * 1000 + nsec t2 / 1000000).
  { destruct Hb as [Hs | [Hs Hn]]; [lia |].
    rewrite Hs. apply Z.add_le_mono_l, Z.div_le_mono; lia. }
  assert (Hs : unixSec t1 <= unixSec t2) by (destruct Hb as [? | [? _]]; lia).
  unfold UnixMilli.
  change (2 ^ 63) with 9223372036854775808 in *.
  rewrite !int64_small by (change (2 ^ 63) with 9223372036854775808; lia).
  lia.
Qed.

(** X4. Between the epoch and the year 267 million, the key of a later
    write of a device never sorts after the key of an earlier one: the two
    keys are equal when the two instants fall in the same millisecond, and
    the later key sorts first otherwise. *)
Theorem later_key_never_sorts_after (d : string) (t1 t2 : Time) :
  valid_time t1 -> valid_time t2 ->
  0 <= unixSec t1 -> unixSec t2 < 8446744073709551 ->
  Before t1 t2 ->
  String.compare (BigTable.rowKey d t2) (BigTable.rowKey d t1)
  = if UnixMilli t1 =? UnixMilli t2 then Eq else Lt.
Proof.
  intros V1 V2 H0 Hmax Hb.
  destruct (UnixMilli_monotone t1 t2 V1 V2 H0 Hmax Hb) as [[Hlo Hle] Hhi].
  destruct (Z.eqb_spec (UnixMilli t1) (UnixMilli t2)) as [E | N].
  - rewrite (rowKey_millis d d t2 t1 eq_refl (eq_sym E)).
    apply string_compare_refl.
  - apply rowKey_descending_after_epoch; lia.
Qed.

Lemma later_key_never_sorts_after_witness :
  String.compare (BigTable.rowKey "sensor-42" (mkTime 1700000000 999999999))
                 (BigTable.rowKey "sensor-42" (mkTime 1700000000 999000001)) = Eq /\
  String.compare (BigTable.rowKey "sensor-42" (mkTime 1700000001 0))
                 (BigTable.rowKey "sensor-42" (mkTime 1700000000 999999999)) = Lt.
Proof.
  split.
  - apply (later_key_never_sorts_after "sensor-42"
             (mkTime 1700000000 999000001) (mkTime 1700000000 999999999)).
    + unfold valid_time. cbn [unixSec nsec]. lia.
    + unfold valid_time. cbn [unixSec nsec]. lia.
    + cbn [unixSec]. lia.
    + cbn [unixSec]. lia.
    + right. cbn [unixSec nsec]. lia.
  - apply (later_key_never_sorts_after "sensor-42"
             (mkTime 1700000000 999999999) (mkTime 1700000001 0)).
    + unfold valid_time. cbn [unixSec nsec]. lia.
    + unfold valid_time. cbn [unixSec nsec]. lia.
    + cbn [unixSec]. lia.
    + cbn [unixSec]. lia.
    + left. cbn [unixSec]. lia.
Defined.

(** ** Calls, lines and closes of a trace *)

Lemma calls_app {C O : Type} (a b : list (Event C O)) :
  calls (a ++ b)%list = (calls a ++ calls b)%list.
Proof. apply flat_map_app. Qed.

Lemma printed_app {C O : Type} (a b : list (Event C O)) :
  printed (a ++ b)%list = (printed a ++ printed b)%list.
Proof. apply flat_map_app. Qed.

Lemma closes_app {C O : Type} (a b : list (Event C O)) :
  closes (a ++ b)%list = (closes a + closes b)%nat.
Proof. unfold closes. now rewrite filter_app, List.length_app. Qed.

Lemma calls_nil {C O : Type} : calls (@nil (Event C O)) = [].
Proof. reflexivity. Qed.

Lemma printed_nil {C O : Type} : printed (@nil (Event C O)) = [].
Proof. reflexivity. Qed.

Lemma closes_nil {C O : Type} : closes (@nil (Event C O)) = 0%nat.
Proof. reflexivity. Qed.

Lemma calls_cons {C O : Type} (e : Event C O) (tr : list (Event C O)) :
  calls (e :: tr)
  = (match e with
     | Called c _ => [c]
     | _ => []
     end ++ calls tr)%list.
Proof. reflexivity. Qed.

Lemma printed_cons {C O : Type} (e : Event C O) (tr : list (Event C O)) :
  printed (e :: tr)
  = (match e with
     | Printed o => [o]
     | _ => []
     end ++ printed tr)%list.
Proof. reflexivity. Qed.

Lemma closes_cons {C O : Type} (e : Event C O) (tr : list (Event C O)) :
  closes (e :: tr)
  = (match e with
     | Closed => 1
     | _ => 0
     end + closes tr)%nat.
Proof. unfold closes. cbn [filter]. destruct e; reflexivity. Qed.

Lemma quiet_calls {C O : Type} (tr : list (Event C O)) :
  quiet tr = true -> calls tr = [].
Proof.
  induction tr as [| e tr IH]; [reflexivity |].
  cbn [quiet forallb]. intros H. apply andb_prop in H as [He Htr].
  rewrite calls_cons, (IH Htr). destruct e; try discriminate He; reflexivity.
Qed.

Lemma family_events_closes (r : BigTable.Row) :
  closes (flat_map family_events r) = 0%nat.
Proof.
  induction r as [| [fam items] r IH]; [reflexivity |].
  cbn [flat_map]. rewrite closes_app, IH. unfold family_events.
  cbn [fst snd]. rewrite closes_cons. cbn [Nat.add]. clear IH.
  induction items as [| it items IHi]; [reflexivity |].
  cbn [map]. rewrite closes_cons. exact IHi.
Qed.

Lemma family_events_printed (r : BigTable.Row) :
  printed (flat_map family_events r) = row_lines r.
Proof.
  unfold row_lines.
  induction r as [| [fam items] r IH]; [reflexivity |].
  cbn [flat_map]. rewrite printed_app, IH. f_equal.
  unfold family_events. cbn [fst snd]. rewrite printed_cons. cbn [app].
  f_equal. clear IH.
  induction items as [| it items IHi]; [reflexivity |].
  cbn [map]. rewrite printed_cons, IHi. reflexivity.
Qed.

Lemma printed_rows_closes (keys : list string) :
  closes (C := BigTable.Call)
         (map (fun key => Printed (BigTable.OutRow key)) keys) = 0%nat.
Proof.
  induction keys as [| k keys IH]; [reflexivity |].
  cbn [map]. rewrite closes_cons. exact IH.
Qed.

Lemma printed_rows_printed (keys : list string) :
  printed (C := BigTable.Call)
          (map (fun key => Printed (BigTable.OutRow key)) keys)
  = map BigTable.OutRow keys.
Proof.
  induction keys as [| k keys IH]; [reflexivity |].
  cbn [map]. rewrite printed_cons, IH. reflexivity.
Qed.

Lemma rowKey_prefix (d : string) (t : Time) :
  String.prefix (d ++ "#") (BigTable.rowKey d t) = true.
Proof.
  rewrite rowKey_unfold.
  induction d as [| c d IH]; cbn [append String.prefix].
  - destruct (ascii_dec "#" "#"); [| congruence].
    now destruct (FormatUint _).
  - destruct (ascii_dec c c); [exact IH | congruence].
Qed.

(** Evaluates [calls], [closes] and [printed] over a trace made of explicit
    events and of loop segments known from the context. *)
Ltac observe :=
  repeat (cbn [app Nat.add firstn trace fst exit_status snd]
          || (rewrite calls_nil)
          || (rewrite closes_nil)
          || (rewrite printed_nil)
          || (rewrite calls_cons)
          || (rewrite closes_cons)
          || (rewrite printed_cons)
          || (rewrite app_nil_r)
          || (rewrite calls_app)
          || (rewrite closes_app)
          || (rewrite printed_app)
          || (rewrite <- app_assoc)
          || match goal with
             | H : _ = _ |- _ => rewrite H
             end).

(** X5. A run of the wide-column example makes its calls in the order
    client construction, write, read, scan, up to and including the first
    one that fails; the read asks for the key just written, in the same
    table, and that key lies in the prefix the scan covers. *)
Theorem bt_calls_in_order (w : BigTable.World) :
  calls (trace (BigTable.main w)) = firstn (bt_calls_made w) (bt_planned_calls w) /\
  String.prefix "sensor-42#"
    (BigTable.rowKey "sensor-42" (BigTable.time_now w)) = true.
Proof.
  split; [| exact (rowKey_prefix "sensor-42" (BigTable.time_now w))].
  pose proof (quiet_calls _ (quiet_family_events (BigTable.read_row w))) as Cf.
  pose proof (quiet_calls _ (quiet_printed_rows (BigTable.scan_rows w))) as Cr.
  unfold bt_calls_made, bt_planned_calls, BigTable.main. rewrite loadConfig_eq.
  destruct (BigTable.dotenv_load w); [reflexivity |].
  unfold BigTable.createBigtableClient, BigTable.writeRow.
  destruct (BigTable.new_client w); [reflexivity |].
  destruct (BigTable.apply w); [reflexivity |].
  run_bt. rewrite readRow_eq.
  destruct (BigTable.read_row_err w); [reflexivity |].
  run_bt. rewrite scanRows_eq.
  destruct (BigTable.scan_err w); run_bt; observe; reflexivity.
Qed.

(** X6. A run of the wide-column example ends with status 0 exactly when
    the [.env] file loads and the four calls succeed, and with status 1
    otherwise; the client is closed exactly in the runs that end with
    status 0. *)
Theorem bt_exit_status (w : BigTable.World) :
  (exit_status (BigTable.main w) = 0 <->
   BigTable.dotenv_load w = None /\ BigTable.new_client w = None /\
   BigTable.apply w = None /\ BigTable.read_row_err w = None /\
   BigTable.scan_err w = None) /\
  (exit_status (BigTable.main w) = 0 \/ exit_status (BigTable.main w) = 1) /\
  closes (trace (BigTable.main w))
  = if exit_status (BigTable.main w) =? 0 then 1%nat else 0%nat.
Proof.
  pose proof (family_events_closes (BigTable.read_row w)) as Cf.
  pose proof (printed_rows_closes (BigTable.scan_rows w)) as Cr.
  unfold BigTable.main. rewrite loadConfig_eq.
  destruct (BigTable.dotenv_load w);
    [run_bt; observe; intuition (auto; discriminate) |].
  unfold BigTable.createBigtableClient, BigTable.writeRow.
  destruct (BigTable.new_client w);
    [run_bt; observe; intuition (auto; discriminate) |].
  destruct (BigTable.apply w);
    [run_bt; observe; intuition (auto; discriminate) |].
  run_bt. rewrite readRow_eq.
  destruct (BigTable.read_row_err w);
    [run_bt; observe; intuition (auto; discriminate) |].
  run_bt. rewrite scanRows_eq.
  destruct (BigTable.scan_err w);
    run_bt; observe; intuition (auto; discriminate).
Qed.

(** ** Observations on the functions of the wide-column example *)

(** X7. [scanRows] makes one scan call, for the prefix it is given and the
    latest version of each cell only, and prints the key of every row
    delivered, in order, also when the scan ends with an error; it ends
    the process exactly in that case. *)
Theorem scanRows_prints_every_row (w : BigTable.World) (tbl prefix : string) :
  calls (trace (BigTable.scanRows w tbl prefix)) = [BigTable.ReadRows tbl prefix 1] /\
  printed (trace (BigTable.scanRows w tbl prefix))
  = BigTable.OutScanning prefix :: map BigTable.OutRow (BigTable.scan_rows w) /\
  snd (BigTable.scanRows w tbl prefix)
  = match BigTable.scan_err w with
    | Some _ => Exits 1
    | None => Returns tt
    end.
Proof.
  pose proof (quiet_calls _ (quiet_printed_rows (BigTable.scan_rows w))) as Cr.
  pose proof (printed_rows_printed (BigTable.scan_rows w)) as Pr.
  rewrite scanRows_eq.
  destruct (BigTable.scan_err w); observe; repeat split; reflexivity.
Qed.

(** X8. [readRow] prints nothing and ends the process with status 1 when
    the read fails; otherwise it prints the key, then for each family of
    the row its name followed by its items, and returns. *)
Theorem readRow_output (w : BigTable.World) (tbl key : string) :
  calls (trace (BigTable.readRow w tbl key)) = [BigTable.ReadRow tbl key] /\
  match BigTable.read_row_err w with
  | Some _ =>
      printed (trace (BigTable.readRow w tbl key)) = [] /\
      snd (BigTable.readRow w tbl key) = Exits 1
  | None =>
      printed (trace (BigTable.readRow w tbl key))
      = BigTable.OutReading key :: row_lines (BigTable.read_row w) /\
      snd (BigTable.readRow w tbl key) = Returns tt
  end.
Proof.
  pose proof (quiet_calls _ (quiet_family_events (BigTable.read_row w))) as Cf.
  pose proof (family_events_printed (BigTable.read_row w)) as Pf.
  rewrite readRow_eq.
  destruct (BigTable.read_row_err w); observe; repeat split; reflexivity.
Qed.

(** ** Observations on the warehouse example *)

Lemma row_events_calls (rows : list BigQuery.EventRow) :
  calls (flat_map row_events rows) = repeat BigQuery.Next (List.length rows).
Proof.
  induction rows as [| r rows IH]; [reflexivity |].
  cbn [flat_map]. rewrite calls_app, IH. reflexivity.
Qed.

Lemma row_events_closes (rows : list BigQuery.EventRow) :
  closes (flat_map row_events rows) = 0%nat.
Proof.
  induction rows as [| r rows IH]; [reflexivity |].
  cbn [flat_map]. rewrite closes_app, IH. reflexivity.
Qed.

Lemma repeat_snoc {A : Type} (x : A) (n : nat) :
  (repeat x n ++ [x])%list = repeat x (S n).
Proof. induction n as [| n IH]; [reflexivity |]. cbn [repeat app]. now rewrite IH. Qed.

Lemma ids_missing_iff (p d t : string) :
  ((p =? "") || (d =? "") || (t =? ""))%string = true
  <-> p = "" \/ d = "" \/ t = "".
Proof. rewrite !orb_true_iff, !String.eqb_eq. tauto. Qed.

Lemma ids_present_iff (p d t : string) :
  ((p =? "") || (d =? "") || (t =? ""))%string = false
  <-> p <> "" /\ d <> "" /\ t <> "".
Proof. rewrite !orb_false_iff, !String.eqb_neq. tauto. Qed.

Lemma sample_savers (w : BigQuery.World) :
  BigQuery.make_savers
    [ {| BigQuery.EventID := Sprintf "evt-%d" [ArgInt64 (UnixNano (BigQuery.time_now w))];
         BigQuery.DeviceID := "device-123";
         BigQuery.Timestamp := BigQuery.time_now w;
         BigQuery.Temperature := {| BigQuery.Float64 := 4628391558295165338;
                                    BigQuery.Valid := true |} |} ]
  = [sample_saver w].
Proof. reflexivity. Qed.

(** X9. A run of the warehouse example makes its calls in this order: the
    client, the insert of the sample row when BIG_QUERY_INSERT_SAMPLE is
    ["1"] and only then, the client of the query, the query, and one fetch
    per result row plus the one that ends the iteration; it stops after the
    first call that fails. *)
Theorem bq_calls_in_order (w : BigQuery.World) :
  exists k, calls (trace (BigQuery.main w)) = firstn k (bq_planned_calls w).
Proof.
  pose proof (row_events_calls (BigQuery.rows w)) as Cr.
  unfold bq_planned_calls, BigQuery.main.
  set (P := BigQuery.getenv w "PROJECT_ID").
  set (D := BigQuery.getenv w "BIG_QUERY_DATASET_ID").
  set (T := BigQuery.getenv w "BIG_QUERY_TABLE_ID").
  set (N := List.length (BigQuery.rows w)) in *.
  assert (Hall : forall l : list BigQuery.Call, l = firstn (List.length l) l)
    by (intros l; symmetry; apply firstn_all).
  destruct (BigQuery.dotenv_load w);
    (destruct (_ || _ || _)%bool; [exists 0%nat; reflexivity |]);
    (destruct (P =? "your-gcp-project-id")%string; [exists 0%nat; reflexivity |]);
    (destruct (BigQuery.new_client_main w); [exists 1%nat; reflexivity |]);
    (destruct (_ =? "1")%string;
     [ run_bq; rewrite insertEvents_eq, sample_savers;
       (destruct (BigQuery.put w); [exists 2%nat; reflexivity |]);
       run_bq; rewrite queryEventsTable_eq;
       (destruct (BigQuery.new_client_query w); [exists 3%nat; reflexivity |]);
       (destruct (BigQuery.read w); [exists 4%nat; reflexivity |])
     | run_bq; rewrite queryEventsTable_eq;
       (destruct (BigQuery.new_client_query w); [exists 2%nat; reflexivity |]);
       (destruct (BigQuery.read w); [exists 3%nat; reflexivity |]) ]);
    destruct (BigQuery.iter_end w); run_bq; observe;
    rewrite repeat_snoc; eexists; apply Hall.
Qed.

(** X10. A run of the warehouse example ends with status 0 exactly when
    the three identifiers are set, the project is not the placeholder, and
    every call succeeds (the insert only being made on request); whether
    the [.env] file loads plays no part.  It ends with status 1 otherwise.
    A run that ends with status 0 has closed both clients; one that ends
    with status 1 has closed at most the client of the query. *)
Theorem bq_exit_status (w : BigQuery.World) :
  (exit_status (BigQuery.main w) = 0 <->
   BigQuery.getenv w "PROJECT_ID" <> "" /\
   BigQuery.getenv w "BIG_QUERY_DATASET_ID" <> "" /\
   BigQuery.getenv w "BIG_QUERY_TABLE_ID" <> "" /\
   BigQuery.getenv w "PROJECT_ID" <> "your-gcp-project-id" /\
   BigQuery.new_client_main w = None /\
   (BigQuery.getenv w "BIG_QUERY_INSERT_SAMPLE" = "1" -> BigQuery.put w = None) /\
   BigQuery.new_client_query w = None /\
   BigQuery.read w = None /\
   BigQuery.iter_end w = None) /\
  (exit_status (BigQuery.main w) = 0 \/ exit_status (BigQuery.main w) = 1) /\
  (exit_status (BigQuery.main w) = 0 -> closes (trace (BigQuery.main w)) = 2%nat) /\
  (exit_status (BigQuery.main w) = 1 -> (closes (trace (BigQuery.main w)) <= 1)%nat).
Proof.
  pose proof (row_events_closes (BigQuery.rows w)) as Cr.
  unfold BigQuery.main.
  set (P := BigQuery.getenv w "PROJECT_ID").
  set (D := BigQuery.getenv w "BIG_QUERY_DATASET_ID").
  set (T := BigQuery.getenv w "BIG_QUERY_TABLE_ID").
  set (F := BigQuery.getenv w "BIG_QUERY_INSERT_SAMPLE").
  destruct (BigQuery.dotenv_load w);
    (destruct (_ || _ || _)%bool eqn:Hids;
     [ apply ids_missing_iff in Hids; run_bq; observe;
       intuition (auto; try discriminate; try congruence; try lia)
     | apply ids_present_iff in Hids ]);
    (destruct (P =? "your-gcp-project-id")%string eqn:Hph;
     [ apply String.eqb_eq in Hph; run_bq; observe;
       intuition (auto; try discriminate; try congruence; try lia)
     | apply String.eqb_neq in Hph ]);
    (destruct (BigQuery.new_client_main w);
     [ run_bq; observe; intuition (auto; try discriminate; try congruence; try lia) | ]);
    (destruct (F =? "1")%string eqn:Hflag;
     [ apply String.eqb_eq in Hflag; run_bq; rewrite insertEvents_eq;
       (destruct (BigQuery.put w) eqn:Hput;
        [ run_bq; observe;
          split; [split; [discriminate | intros (_ & _ & _ & _ & _ & Hp & _);
                                          specialize (Hp eq_refl); discriminate] |];
          intuition (auto; try discriminate; try lia) | ])
     | apply String.eqb_neq in Hflag ]);
    run_bq; rewrite queryEventsTable_eq;
    (destruct (BigQuery.new_client_query w);
     [ run_bq; observe; intuition (auto; try discriminate; try congruence; try lia) | ]);
    (destruct (BigQuery.read w);
     [ run_bq; observe; intuition (auto; try discriminate; try congruence; try lia) | ]);
    destruct (BigQuery.iter_end w); run_bq; observe;
    intuition (auto; try discriminate; try congruence; try lia).
Qed.

Lemma row_events_printed (rows : list BigQuery.EventRow) :
  printed (flat_map row_events rows) = map result_line rows.
Proof.
  induction rows as [| r rows IH]; [reflexivity |].
  cbn [flat_map]. rewrite printed_app, IH. reflexivity.
Qed.

(** X11. [queryEventsTable] never ends the process: it returns an error
    exactly when the construction of its client, the query or a fetch
    fails.  It closes its client once whenever the client was constructed,
    also on the error paths.  It prints nothing unless the query succeeds,
    and then the header and one line per row fetched, in order, also when a
    later fetch fails. *)
Theorem queryEventsTable_behaviour (w : BigQuery.World) (p d t : string) :
  (exists r, snd (BigQuery.queryEventsTable w p d t) = Returns r /\
             (r = None <->
              BigQuery.new_client_query w = None /\ BigQuery.read w = None /\
              BigQuery.iter_end w = None)) /\
  closes (trace (BigQuery.queryEventsTable w p d t))
  = match BigQuery.new_client_query w with
    | None => 1%nat
    | Some _ => 0%nat
    end /\
  printed (trace (BigQuery.queryEventsTable w p d t))
  = match BigQuery.new_client_query w, BigQuery.read w with
    | None, None =>
        BigQuery.OutHeader (BigQuery.tableRef p d t) :: map result_line (BigQuery.rows w)
    | _, _ => []
    end.
Proof.
  pose proof (row_events_closes (BigQuery.rows w)) as Cr.
  pose proof (row_events_printed (BigQuery.rows w)) as Pr.
  rewrite queryEventsTable_eq.
  destruct (BigQuery.new_client_query w), (BigQuery.read w);
    try destruct (BigQuery.iter_end w);
    observe;
    (split; [eexists; split; [reflexivity |];
             intuition (auto; try discriminate) |]);
    split; reflexivity.
Qed.

(** X12. [insertEvents] makes its one call whatever the list, with as many
    savers as rows (none for the empty list), never ends the process, and
    returns an error exactly when the call fails: the error of the call
    behind the text ["inserter.Put: "]. *)
Theorem insertEvents_result (w : BigQuery.World) (datasetID tableID : string)
        (rows : list BigQuery.EventRow) :
  (exists savers,
      calls (trace (BigQuery.insertEvents w datasetID tableID rows))
      = [BigQuery.Put datasetID tableID savers] /\
      List.length savers = List.length rows /\
      map BigQuery.InsertID savers = map BigQuery.EventID rows) /\
  snd (BigQuery.insertEvents w datasetID tableID rows)
  = Returns (match BigQuery.put w with
             | Some e => Some ("inserter.Put: " ++ e)
             | None => None
             end).
Proof.
  rewrite insertEvents_eq. split.
  - exists (BigQuery.make_savers rows). split; [reflexivity |].
    rewrite make_savers_eq, length_map, map_map. split; reflexivity.
  - cbn [snd]. destruct (BigQuery.put w) as [e |]; [| reflexivity].
    cbn [Sprintf Ascii.eqb Bool.eqb is_verb orb formatArg append].
    now rewrite append_empty_r.
Qed.

(** ** The identifier of the sample row *)

Lemma FormatUint_inj (a b : Z) :
  0 <= a < 2 ^ 64 -> 0 <= b < 2 ^ 64 -> FormatUint a = FormatUint b -> a = b.
Proof.
  intros Ha Hb E.
  destruct (FormatUint_spec a Ha) as (_ & Va & _).
  destruct (FormatUint_spec b Hb) as (_ & Vb & _).
  rewrite <- Va, <- Vb, E. reflexivity.
Qed.

Lemma FormatUint_no_sign (u : Z) (s : string) :
  0 <= u < 2 ^ 64 -> FormatUint u <> String "-" s.
Proof.
  intros Hu E. destruct (FormatUint_spec u Hu) as (Hd & _).
  rewrite E in Hd. discriminate Hd.
Qed.

Lemma FormatInt_inj (a b : Z) :
  - 2 ^ 63 <= a < 2 ^ 63 -> - 2 ^ 63 <= b < 2 ^ 63 ->
  FormatInt a = FormatInt b -> a = b.
Proof.
  intros Ha Hb. unfold FormatInt.
  change (2 ^ 63) with 9223372036854775808 in *.
  assert (R : forall x, - 9223372036854775808 <= x < 9223372036854775808 ->
                        x < 0 -> 0 <= - x < 2 ^ 64)
    by (intros; change (2 ^ 64) with 18446744073709551616; lia).
  assert (R' : forall x, - 9223372036854775808 <= x < 9223372036854775808 ->
                         0 <= x -> 0 <= x < 2 ^ 64)
    by (intros; change (2 ^ 64) with 18446744073709551616; lia).
  destruct (Z.ltb_spec a 0), (Z.ltb_spec b 0); intros E.
  - injection E as E. apply FormatUint_inj in E; auto. lia.
  - symmetry in E. apply FormatUint_no_sign in E; [contradiction | auto].
  - apply FormatUint_no_sign in E; [contradiction | auto].
  - apply FormatUint_inj in E; auto.
Qed.

Lemma UnixNano_range (t : Time) : - 2 ^ 63 <= UnixNano t < 2 ^ 63.
Proof. apply int64_range. Qed.

(** X13. The sample row of the warehouse example carries its own
    identifier as deduplication token: ["evt-"] followed by the decimal
    numeral of the nanosecond value of the clock.  Two runs produce the
    same token exactly when their clocks read the same nanosecond value. *)
Theorem sample_token (w1 w2 : BigQuery.World) :
  BigQuery.InsertID (sample_saver w1)
  = BigQuery.EventID (BigQuery.Struct (sample_saver w1)) /\
  BigQuery.InsertID (sample_saver w1)
  = "evt-" ++ FormatInt (UnixNano (BigQuery.time_now w1)) /\
  (BigQuery.InsertID (sample_saver w1) = BigQuery.InsertID (sample_saver w2)
   <-> UnixNano (BigQuery.time_now w1) = UnixNano (BigQuery.time_now w2)).
Proof.
  assert (Hid : forall w, BigQuery.InsertID (sample_saver w)
                          = "evt-" ++ FormatInt (UnixNano (BigQuery.time_now w))).
  { intros w. unfold sample_saver. cbn [BigQuery.InsertID].
    cbn [Sprintf Ascii.eqb Bool.eqb is_verb orb formatArg append].
    now rewrite append_empty_r. }
  split; [reflexivity |]. split; [apply Hid |].
  rewrite !Hid. split.
  - intros E. apply append_inv_head in E.
    apply FormatInt_inj; auto using UnixNano_range.
  - intros ->. reflexivity.
Qed.

(** ** How a run ends *)

Lemma last_event_nil {C O : Type} : last_event (@nil (Event C O)) = None.
Proof. reflexivity. Qed.

Lemma last_event_cons {C O : Type} (x : Event C O) (tr : list (Event C O)) :
  last_event (x :: tr)
  = match last_event tr with
    | Some e => Some e
    | None => Some x
    end.
Proof. unfold last_event. cbn [rev]. destruct (rev tr); reflexivity. Qed.

Lemma last_event_app {C O : Type} (a b : list (Event C O)) :
  last_event (a ++ b)%list
  = match last_event b with
    | Some e => Some e
    | None => last_event a
    end.
Proof.
  unfold last_event. rewrite rev_app_distr.
  destruct (rev b); [now rewrite app_nil_l | reflexivity].
Qed.

(** Reads the last event of a trace made of explicit events and of loop
    segments. *)
Ltac read_last :=
  repeat ((rewrite last_event_cons) || (rewrite last_event_app)
          || (rewrite last_event_nil));
  reflexivity.

(** X14. Neither program ends with status 1 without a message: the last
    event of a run that ends with status 1 is a line of the log.  The last
    event of a run that ends with status 0 is the closing of the client. *)
Theorem run_ends_with_log_or_close :
  (forall w : BigQuery.World,
      (exit_status (BigQuery.main w) = 1 ->
       exists msg, last_event (trace (BigQuery.main w)) = Some (Logged msg)) /\
      (exit_status (BigQuery.main w) = 0 ->
       last_event (trace (BigQuery.main w)) = Some Closed)) /\
  (forall w : BigTable.World,
      (exit_status (BigTable.main w) = 1 ->
       exists msg, last_event (trace (BigTable.main w)) = Some (Logged msg)) /\
      (exit_status (BigTable.main w) = 0 ->
       last_event (trace (BigTable.main w)) = Some Closed)).
Proof.
  split; intros w.
  - unfold BigQuery.main.
    destruct (BigQuery.dotenv_load w);
      (destruct (_ || _ || _)%bool;
       [run_bq; split; [intros _; eexists; read_last | discriminate] |]);
      (destruct (_ =? "your-gcp-project-id")%string;
       [run_bq; split; [intros _; eexists; read_last | discriminate] |]);
      (destruct (BigQuery.new_client_main w);
       [run_bq; split; [intros _; eexists; read_last | discriminate] |]);
      (destruct (_ =? "1")%string;
       [ run_bq; rewrite insertEvents_eq;
         (destruct (BigQuery.put w);
          [run_bq; split; [intros _; eexists; read_last | discriminate] |])
       | ]);
      run_bq; rewrite queryEventsTable_eq;
      (destruct (BigQuery.new_client_query w);
       [run_bq; split; [intros _; eexists; read_last | discriminate] |]);
      (destruct (BigQuery.read w);
       [run_bq; split; [intros _; eexists; read_last | discriminate] |]);
      (destruct (BigQuery.iter_end w); run_bq;
       [ split; [intros _; eexists; read_last | discriminate]
       | split; [discriminate | intros _; read_last] ]).
  - unfold BigTable.main. rewrite loadConfig_eq.
    destruct (BigTable.dotenv_load w);
      [run_bt; split; [intros _; eexists; read_last | discriminate] |].
    unfold BigTable.createBigtableClient, BigTable.writeRow.
    destruct (BigTable.new_client w);
      [run_bt; split; [intros _; eexists; read_last | discriminate] |].
    destruct (BigTable.apply w);
      [run_bt; split; [intros _; eexists; read_last | discriminate] |].
    run_bt. rewrite readRow_eq.
    destruct (BigTable.read_row_err w);
      [run_bt; split; [intros _; eexists; read_last | discriminate] |].
    run_bt. rewrite scanRows_eq.
    destruct (BigTable.scan_err w); run_bt;
      [ split; [intros _; eexists; read_last | discriminate]
      | split; [discriminate | intros _; read_last] ].
Qed.

Lemma bt_exit_status_witness :
  exit_status (BigTable.main bt_world_no_config) = 0 /\
  closes (trace (BigTable.main bt_world_no_config)) = 1%nat /\
  closes (trace (BigTable.main bt_world_apply_fails)) = 0%nat.
Proof.
  destruct (bt_exit_status bt_world_no_config) as (Hiff & _ & Hc).
  destruct (bt_exit_status bt_world_apply_fails) as (_ & _ & Hc').
  split; [| split].
  - apply Hiff. repeat split.
  - rewrite Hc. reflexivity.
  - rewrite Hc'. reflexivity.
Defined.

Lemma bq_exit_status_witness :
  exit_status (BigQuery.main bq_world_ok) = 0 /\
  closes (trace (BigQuery.main bq_world_ok)) = 2%nat /\
  (closes (trace (BigQuery.main bq_world_put_fails)) <= 1)%nat.
Proof.
  destruct (bq_exit_status bq_world_ok) as (Hiff & _ & Hc & _).
  destruct (bq_exit_status bq_world_put_fails) as (_ & _ & _ & Hc').
  assert (H0 : exit_status (BigQuery.main bq_world_ok) = 0).
  { apply Hiff. repeat split; try discriminate. }
  split; [exact H0 |]. split; [exact (Hc H0) |].
  apply Hc'. reflexivity.
Defined.

Lemma run_ends_with_log_or_close_witness :
  (exists msg, last_event (trace (BigQuery.main bq_world_put_fails)) = Some (Logged msg)) /\
  last_event (trace (BigTable.main bt_world_no_config)) = Some Closed.
Proof.
  destruct run_ends_with_log_or_close as (Hq & Ht). split.
  - apply (proj1 (Hq bq_world_put_fails)). reflexivity.
  - apply (proj2 (Ht bt_world_no_config)). reflexivity.
Defined.
